(** * Wisdom: the team-battle view (TeamBattleGame.tsx) and TeamDisplay

    A shallow embedding of the client-side reducer of the team-battle page
    and of the [TeamDisplay] roster component, with the properties stated
    for them.

    Conventions of the embedding.
    - An inbound socket message is either text that [JSON.parse] rejects or a
      parsed JavaScript value ([value]).  Objects keep their member list in
      source order; a property read returns the last member of that name, as
      [JSON.parse] does.
    - Numbers are the integer-valued ones (ids, counters, scores).
    - [===] on two objects or arrays compares references.  Every comparison
      in this view is between nodes of different parsed messages, or between
      a parsed node and a primitive, so it is [false] on those; the one place
      where a node can meet itself is [team.id !== playerTeam?.id] when a
      team id is itself an object or array, which the embedding reads as
      "different".
    - React state: the handler enqueues setter calls ([Action]); they are
      applied in order at the next render ([flush]); an updater function that
      throws there takes the render down ([Throw] out of [step]).  After the
      render the effects run ([run_effects]), and the next message is handled
      in the state they leave. *)

From Stdlib Require Import ZArith Lia.
From stdpp Require Import base option list strings gmap pretty.

Open Scope string_scope.
Open Scope list_scope.
Open Scope stdpp_scope.

(** ** JavaScript values *)

#[warnings="-register-all"]
Inductive value : Type :=
| VUndefined
| VNull
| VBool (b : bool)
| VNum (n : Z)
| VStr (s : string)
| VArr (items : list value)
| VObj (fields : list (string * value)).

Inductive Exn : Type :=
| SyntaxError
| TypeError.

Inductive Result (A : Type) : Type :=
| Ok (a : A)
| Throw (e : Exn).
Arguments Ok {A} a.
Arguments Throw {A} e.

#[global] Instance Result_ret : MRet Result := fun _ a => Ok a.
#[global] Instance Result_bind : MBind Result := fun _ _ f m =>
  match m with
  | Ok a => f a
  | Throw e => Throw e
  end.

Module JS.

(** ToBoolean *)
Definition truthy (v : value) : bool :=
  match v with
  | VUndefined | VNull => false
  | VBool b => b
  | VNum n => negb (n =? 0)%Z
  | VStr s => negb (String.eqb s "")
  | VArr _ | VObj _ => true
  end.

Definition nullish (v : value) : bool :=
  match v with
  | VUndefined | VNull => true
  | _ => false
  end.

(** [a || b] and [a ?? b] on already evaluated operands. *)
Definition or_else (a b : value) : value := if truthy a then a else b.
Definition coalesce (a b : value) : value := if nullish a then b else a.

(** [a === b] *)
Definition strict_eq (a b : value) : bool :=
  match a, b with
  | VUndefined, VUndefined => true
  | VNull, VNull => true
  | VBool x, VBool y => Bool.eqb x y
  | VNum x, VNum y => (x =? y)%Z
  | VStr x, VStr y => String.eqb x y
  | _, _ => false
  end.

(** The last member named [k] of a member list. *)
Fixpoint assoc_last (k : string) (fs : list (string * value)) : option value :=
  match fs with
  | [] => None
  | (k', v) :: fs' =>
      match assoc_last k fs' with
      | Some w => Some w
      | None => if String.eqb k' k then Some v else None
      end
  end.

(** Own property [k] of [v], for the field names this view reads (none of
    them is an index, [length] or a member of a built-in prototype). *)
Definition own (v : value) (k : string) : option value :=
  match v with
  | VObj fs => assoc_last k fs
  | _ => None
  end.

Definition prop (v : value) (k : string) : value :=
  default VUndefined (own v k).

(** [v.k]: a TypeError on [undefined] and [null]. *)
Definition get (v : value) (k : string) : Result value :=
  if nullish v then Throw TypeError else Ok (prop v k).

(** [v?.k] *)
Definition get_opt (v : value) (k : string) : value :=
  if nullish v then VUndefined else prop v k.

(** ToString, used for computed property keys. *)
Fixpoint to_string (v : value) : string :=
  match v with
  | VUndefined => "undefined"
  | VNull => "null"
  | VBool true => "true"
  | VBool false => "false"
  | VNum n => pretty n
  | VStr s => s
  | VArr l =>
      (fix join (l : list value) : string :=
         match l with
         | [] => ""
         | x :: l' =>
             let e := match x with
                      | VUndefined | VNull => ""
                      | _ => to_string x
                      end in
             match l' with
             | [] => e
             | _ :: _ => e +:+ "," +:+ join l'
             end
         end) l
  | VObj _ => "[object Object]"
  end.

(** [o[k] = v] on a member list: in place when [k] is there, else last. *)
Fixpoint set_member (k : string) (v : value) (fs : list (string * value))
  : list (string * value) :=
  match fs with
  | [] => [(k, v)]
  | (k', w) :: fs' =>
      if String.eqb k' k then (k, v) :: fs' else (k', w) :: set_member k v fs'
  end.

(** The members of a parsed object, each name once: a repeated name keeps
    its first place and its last value. *)
Definition members (fs : list (string * value)) : list (string * value) :=
  fold_left (fun acc kv => set_member (fst kv) (snd kv) acc) fs [].

(** Enumerable own members copied by an object spread [{...v}]. *)
Definition spread_members (v : value) : list (string * value) :=
  match v with
  | VObj fs => members fs
  | VArr l => imap (fun i x => (pretty i, x)) l
  | VStr s => imap (fun i c => (pretty i, VStr (String c EmptyString)))
                   (String.list_ascii_of_string s)
  | _ => []
  end.

(** Array.prototype.find / some / map with a callback that may throw. *)
Fixpoint find_list (p : value -> Result bool) (l : list value) : Result value :=
  match l with
  | [] => Ok VUndefined
  | x :: l' => b ← p x; if b : bool then Ok x else find_list p l'
  end.

Fixpoint some_list (p : value -> Result bool) (l : list value) : Result bool :=
  match l with
  | [] => Ok false
  | x :: l' => b ← p x; if b : bool then Ok true else some_list p l'
  end.

Fixpoint map_list (f : value -> Result value) (l : list value)
  : Result (list value) :=
  match l with
  | [] => Ok []
  | x :: l' => y ← f x; ys ← map_list f l'; Ok (y :: ys)
  end.

(** [v.find(p)]: reading [find] off [undefined]/[null] throws, and on
    anything but an array the member is not a function. *)
Definition find (v : value) (p : value -> Result bool) : Result value :=
  match v with
  | VArr l => find_list p l
  | _ => Throw TypeError
  end.

(** [v?.find(p)] *)
Definition find_opt (v : value) (p : value -> Result bool) : Result value :=
  if nullish v then Ok VUndefined else find v p.

Definition some (v : value) (p : value -> Result bool) : Result bool :=
  match v with
  | VArr l => some_list p l
  | _ => Throw TypeError
  end.

Definition map (v : value) (f : value -> Result value) : Result value :=
  match v with
  | VArr l => l' ← map_list f l; Ok (VArr l')
  | _ => Throw TypeError
  end.

(** Names every plain object inherits from [Object.prototype]. *)
Definition object_prototype_keys : list string :=
  [ "constructor"; "__proto__"; "hasOwnProperty"; "isPrototypeOf";
    "propertyIsEnumerable"; "toLocaleString"; "toString"; "valueOf";
    "__defineGetter__"; "__defineSetter__"; "__lookupGetter__";
    "__lookupSetter__" ].

Definition inherited (k : string) : bool :=
  existsb (String.eqb k) object_prototype_keys.

End JS.

(** ** Local state of the view *)

(** The authenticated user ([useAuth]); the effect that installs the
    handler returns early without one. *)
Record User : Type := {
  user_id : Z;
  user_username : string;
}.

(** [GameState].  The fields hold whatever the server sent: nothing
    validates a payload before it is stored. *)
Record GameState : Type := {
  phase : value;
  currentQuestion : value;
  questionNumber : value;
  totalQuestions : value;
  timeRemaining : value;
  teams : value;
  playerTeam : value;
  opposingTeam : value;
  finalScore : value;
  correct : value;
  incorrect : value;
}.

(** One entry of [SuggestionsByAnswerId]. *)
Record Suggestion : Type := {
  sg_userId : value;
  sg_username : value;
}.

Abbreviation Suggestions := (gmap string (list Suggestion)).
Abbreviation MemberAnswers := (gmap string value).

(** The [useState] cells of [TeamBattleGame] that the handlers write (the
    sound and voice switches only feed the header).  [gameStateRef.current] is
    not a cell of its own: the first effect copies [gameState] into it after
    every render, so between two messages it is [gameState]. *)
Record View : Type := {
  gameState : GameState;
  selectedAnswer : value;
  hasSubmitted : bool;
  teamAnswer : value;
  memberAnswers : MemberAnswers;
  connected : bool;
  suggestions : Suggestions;
  waitingForResults : bool;
  correctAnswerId : value;
  showRoundFeedback : bool;
  lastRoundCorrect : option bool;
}.

Definition initial_gameState : GameState := {|
  phase := VStr "waiting";
  currentQuestion := VUndefined;
  questionNumber := VUndefined;
  totalQuestions := VUndefined;
  timeRemaining := VUndefined;
  teams := VUndefined;
  playerTeam := VUndefined;
  opposingTeam := VUndefined;
  finalScore := VUndefined;
  correct := VUndefined;
  incorrect := VUndefined;
|}.

Definition initial_view : View := {|
  gameState := initial_gameState;
  selectedAnswer := VNull;
  hasSubmitted := false;
  teamAnswer := VNull;
  memberAnswers := ∅;
  connected := false;
  suggestions := ∅;
  waitingForResults := false;
  correctAnswerId := VNull;
  showRoundFeedback := false;
  lastRoundCorrect := None;
|}.

(** Events sent to the server ([sendGameEvent]). *)
Inductive Outbound : Type :=
| TeamOptionSelected (teamId questionId : value) (answerId : string)
                     (userId : Z) (username : string)
| FinalizeTeamAnswer (teamId questionId : value) (answerId : string).

(** What a handler does besides computing: setter calls, in the order they
    are made, and the console, toast and socket calls. *)
Inductive Action : Type :=
| SetConnected (b : bool)
| SetGameState (f : GameState -> Result GameState)
| SetSelectedAnswer (v : value)
| SetHasSubmitted (b : bool)
| SetTeamAnswer (v : value)
| SetMemberAnswers (f : MemberAnswers -> MemberAnswers)
| SetSuggestions (f : Suggestions -> Result Suggestions)
| SetWaitingForResults (b : bool)
| SetCorrectAnswerId (v : value)
| SetShowRoundFeedback (b : bool)
| SetLastRoundCorrect (o : option bool)
| ConsoleLog (label : string) (payload : value)
| ConsoleError (e : Exn)
| Toast (title : string) (description : value)
| Send (o : Outbound).

Definition is_setter (a : Action) : bool :=
  match a with
  | ConsoleLog _ _ | ConsoleError _ | Toast _ _ | Send _ => false
  | _ => true
  end.

(** A handler body: the actions made so far, and how it ended. *)
Definition Handler (A : Type) : Type := list Action * Result A.

#[global] Instance Handler_ret : MRet Handler := fun _ a => ([], Ok a).
#[global] Instance Handler_bind : MBind Handler := fun _ _ f m =>
  match m with
  | (w, Ok a) => let '(w', r) := f a in (w ++ w', r)
  | (w, Throw e) => (w, Throw e)
  end.

Definition emit (a : Action) : Handler unit := ([a], Ok tt).
Definition eval {A} (r : Result A) : Handler A := ([], r).

(** [try { body } catch (error) { handler error }] *)
Definition try_catch (body : Handler unit) (handler : Exn -> Handler unit)
  : Handler unit :=
  match body with
  | (w, Ok tt) => (w, Ok tt)
  | (w, Throw e) => let '(w', r) := handler e in (w ++ w', r)
  end.

Definition when (b : bool) (h : Handler unit) : Handler unit :=
  if b then h else mret tt.

(** ** The message handler *)

(** [event.data] as [JSON.parse] sees it. *)
Inductive MessageData : Type :=
| Unparsable
| Parsed (data : value).

Definition JSON_parse (m : MessageData) : Result value :=
  match m with
  | Unparsable => Throw SyntaxError
  | Parsed data => Ok data
  end.

(** The [case] labels of the [switch (data.type)]. *)
Inductive EventType : Type :=
| ConnectionEstablished
| Authenticated
| GameStateUpdate
| TeamBattleStarted
| TeamBattleQuestion
| TeamAnswerSubmitted
| TeamOptionSelectedEvent
| TeamAnswerFinalized
| TeamBattleQuestionResults
| TeamBattleRoundComplete
| TeamBattleFinished
| TeamBattleEnded
| TeamsUpdated
| TeamUpdate
| ErrorEvent.

Definition event_labels : list (string * EventType) :=
  [ ("connection_established", ConnectionEstablished);
    ("authenticated", Authenticated);
    ("game_state_update", GameStateUpdate);
    ("team_battle_started", TeamBattleStarted);
    ("team_battle_question", TeamBattleQuestion);
    ("team_answer_submitted", TeamAnswerSubmitted);
    ("team_option_selected", TeamOptionSelectedEvent);
    ("team_answer_finalized", TeamAnswerFinalized);
    ("team_battle_question_results", TeamBattleQuestionResults);
    ("team_battle_round_complete", TeamBattleRoundComplete);
    ("team_battle_finished", TeamBattleFinished);
    ("team_battle_ended", TeamBattleEnded);
    ("teams_updated", TeamsUpdated);
    ("team_update", TeamUpdate);
    ("error", ErrorEvent) ].

(** Which label, if any, is [===] to [data.type]. *)
Definition event_type (ty : value) : option EventType :=
  match ty with
  | VStr s => snd <$> List.find (fun l => String.eqb (fst l) s) event_labels
  | _ => None
  end.

Section Handler.

Variable user : User.

(** [team.members.some(member => member.userId === user?.id)] *)
Definition has_user (team : value) : Result bool :=
  members ← JS.get team "members";
  JS.some members (fun member =>
    uid ← JS.get member "userId";
    Ok (JS.strict_eq uid (VNum (user_id user)))).

(** [team => team.id !== playerTeam?.id] *)
Definition other_than (playerTeam : value) (team : value) : Result bool :=
  id ← JS.get team "id";
  Ok (negb (JS.strict_eq id (JS.get_opt playerTeam "id"))).

(** One field of [{...prev, ...src}]: [src]'s own member when it has one. *)
Definition spread_field (src : value) (k : string) (old : value) : value :=
  default old (JS.own src k).

(** In the handlers below [data] has passed [data.type], so it is neither
    [undefined] nor [null] and [data.k] is [JS.prop data k]. *)

Definition updateGameState (data : value) : Handler unit :=
  emit (SetGameState (fun prev =>
    let gs := JS.prop data "gameState" in
    Ok {| phase := spread_field gs "phase" (phase prev);
          currentQuestion := spread_field gs "currentQuestion" (currentQuestion prev);
          questionNumber := spread_field gs "questionNumber" (questionNumber prev);
          totalQuestions := spread_field gs "totalQuestions" (totalQuestions prev);
          timeRemaining := spread_field gs "timeRemaining" (timeRemaining prev);
          teams := spread_field gs "teams" (teams prev);
          playerTeam := JS.prop data "playerTeam";
          opposingTeam := JS.prop data "opposingTeam";
          finalScore := spread_field gs "finalScore" (finalScore prev);
          correct := spread_field gs "correct" (correct prev);
          incorrect := spread_field gs "incorrect" (incorrect prev) |})).

Definition updateTeamsData (teams' : value) : Handler unit :=
  playerTeam' ← eval (JS.find teams' has_user);
  opposingTeam' ← eval (JS.find teams' (other_than playerTeam'));
  emit (SetGameState (fun prev =>
    Ok {| phase := phase prev;
          currentQuestion := currentQuestion prev;
          questionNumber := questionNumber prev;
          totalQuestions := totalQuestions prev;
          timeRemaining := timeRemaining prev;
          teams := teams';
          playerTeam := playerTeam';
          opposingTeam := opposingTeam';
          finalScore := finalScore prev;
          correct := correct prev;
          incorrect := incorrect prev |})).

(** The updater of [case 'team_battle_question']. *)
Definition load_question (data : value) (prev : GameState) : Result GameState :=
  Ok {| phase := VStr "question";
        currentQuestion := JS.prop data "question";
        questionNumber := JS.prop data "questionNumber";
        totalQuestions := JS.prop data "totalQuestions";
        timeRemaining := JS.or_else (JS.prop data "timeLimit") (VNum 15);
        teams := teams prev;
        playerTeam := playerTeam prev;
        opposingTeam := opposingTeam prev;
        finalScore := finalScore prev;
        correct := correct prev;
        incorrect := incorrect prev |}.

(** [next[answerId].filter(s => s.userId !== data.userId)], and the
    [delete] of a list left empty. *)
Definition without_user (uid : value) (l : list Suggestion)
  : option (list Suggestion) :=
  match List.filter (fun s => negb (JS.strict_eq (sg_userId s) uid)) l with
  | [] => None
  | l' => Some l'
  end.

(** The updater of [case 'team_option_selected'].  [next[data.answerId]]
    finds an own list, else whatever [Object.prototype] has under that
    name, which is truthy and not iterable. *)
Definition select_option (data : value) (prev : Suggestions)
  : Result Suggestions :=
  let uid := JS.prop data "userId" in
  let next := omap (without_user uid) prev in
  let key := JS.to_string (JS.prop data "answerId") in
  list' ← match next !! key with
         | Some l => Ok l
         | None => if JS.inherited key then Throw TypeError else Ok []
         end;
  Ok (<[key := list' ++ [{| sg_userId := uid;
                           sg_username := JS.prop data "username" |}]]> next).

(** [gameStateRef.current.playerTeam?.id ||
     gameStateRef.current.teams?.find(...)?.id] *)
Definition resolvedPlayerTeamId (current : GameState) : Result value :=
  let id := JS.get_opt (playerTeam current) "id" in
  if JS.truthy id then Ok id
  else team ← JS.find_opt (teams current) has_user;
       Ok (JS.get_opt team "id").

(** The updater of [case 'team_battle_question_results']. *)
Definition merge_results (data : value) (prev : GameState) : Result GameState :=
  let leaderboard := JS.prop data "leaderboard" in
  updatedTeams ←
    (if JS.truthy (teams prev) && JS.truthy leaderboard then
       JS.map (teams prev) (fun team =>
         lb ← JS.find leaderboard (fun entry =>
                a ← JS.get entry "teamId";
                b ← JS.get team "id";
                Ok (JS.strict_eq a b));
         if JS.truthy lb
         then Ok (VObj (JS.set_member "score" (JS.prop lb "score")
                              (JS.spread_members team)))
         else Ok team)
     else Ok (teams prev));
  playerTeam' ← JS.find_opt updatedTeams has_user;
  opposingTeam' ← JS.find_opt updatedTeams (other_than playerTeam');
  Ok {| phase := phase prev;
        currentQuestion := currentQuestion prev;
        questionNumber := questionNumber prev;
        totalQuestions := totalQuestions prev;
        timeRemaining := timeRemaining prev;
        teams := updatedTeams;
        playerTeam := JS.or_else playerTeam' (playerTeam prev);
        opposingTeam := JS.or_else opposingTeam' (opposingTeam prev);
        finalScore := finalScore prev;
        correct := correct prev;
        incorrect := incorrect prev |}.

(** The updater of [case 'team_battle_finished'] / ['team_battle_ended']. *)
Definition finish (data : value) (prev : GameState) : Result GameState :=
  let yourTeam := JS.prop data "yourTeam" in
  Ok {| phase := VStr "finished";
        currentQuestion := currentQuestion prev;
        questionNumber := questionNumber prev;
        totalQuestions := totalQuestions prev;
        timeRemaining := timeRemaining prev;
        teams := JS.prop data "finalScores";
        playerTeam := playerTeam prev;
        opposingTeam := opposingTeam prev;
        finalScore := JS.coalesce (JS.coalesce (JS.get_opt yourTeam "score")
                                               (finalScore prev)) (VNum 0);
        correct := JS.coalesce (JS.coalesce (JS.get_opt yourTeam "correctAnswers")
                                            (correct prev)) (VNum 0);
        incorrect := JS.coalesce (JS.coalesce (JS.get_opt yourTeam "incorrectAnswers")
                                              (incorrect prev)) (VNum 0) |}.

(** The body of the [switch]; [current] is [gameStateRef.current]. *)
Definition dispatch (current : GameState) (data : value) (ty : option EventType)
  : Handler unit :=
  match ty with
  | Some ConnectionEstablished =>
      emit (SetConnected true)
  | Some Authenticated =>
      emit (ConsoleLog "Player authenticated for team battle" VUndefined)
  | Some GameStateUpdate =>
      updateGameState data
  | Some TeamBattleStarted =>
      emit (SetGameState (fun prev =>
        Ok {| phase := VStr "playing";
              currentQuestion := currentQuestion prev;
              questionNumber := questionNumber prev;
              totalQuestions := totalQuestions prev;
              timeRemaining := timeRemaining prev;
              teams := teams prev;
              playerTeam := playerTeam prev;
              opposingTeam := opposingTeam prev;
              finalScore := finalScore prev;
              correct := correct prev;
              incorrect := incorrect prev |}));;
      emit (Toast "Battle Started!"
              (VStr "The team battle has begun. Get ready for questions!"))
  | Some TeamBattleQuestion =>
      emit (SetGameState (load_question data));;
      emit (SetSelectedAnswer VNull);;
      emit (SetHasSubmitted false);;
      emit (SetTeamAnswer VNull);;
      emit (SetMemberAnswers (fun _ => ∅));;
      emit (SetSuggestions (fun _ => Ok ∅));;
      emit (SetWaitingForResults false);;
      emit (SetCorrectAnswerId VNull);;
      emit (SetLastRoundCorrect None)
  | Some TeamAnswerSubmitted =>
      when (negb (JS.strict_eq (JS.prop data "userId") (VNum (user_id user))))
        (emit (SetMemberAnswers (fun prev =>
           <[JS.to_string (JS.prop data "username") := JS.prop data "answerId"]> prev)))
  | Some TeamOptionSelectedEvent =>
      if negb (JS.truthy (JS.prop data "teamId"))
         || negb (JS.truthy (JS.prop data "answerId"))
         || negb (JS.truthy (JS.prop data "userId"))
      then mret tt
      else emit (SetSuggestions (select_option data))
  | Some TeamAnswerFinalized =>
      answerId ← eval (JS.get (JS.prop data "finalAnswer") "answerId");
      emit (SetTeamAnswer answerId);;
      emit (SetHasSubmitted true);;
      emit (SetWaitingForResults true)
  | Some TeamBattleQuestionResults =>
      emit (SetWaitingForResults false);;
      let correctId :=
        JS.or_else (JS.get_opt (JS.prop data "correctAnswer") "id") VNull in
      emit (SetCorrectAnswerId correctId);;
      teamId ← eval (resolvedPlayerTeamId current);
      playerTeamResult ← eval (JS.find_opt (JS.prop data "teamResults") (fun r =>
        id ← JS.get r "teamId"; Ok (JS.strict_eq id teamId)));
      let roundCorrect := JS.truthy (JS.get_opt playerTeamResult "correct") in
      emit (SetLastRoundCorrect (Some roundCorrect));;
      emit (ConsoleLog "Team answer was"
              (VStr (if roundCorrect then "CORRECT" else "INCORRECT")));;
      emit (SetGameState (merge_results data))
  | Some TeamBattleRoundComplete =>
      emit (Toast "Round Complete"
              (VStr ("Your team "
                     +:+ (if JS.truthy (JS.prop data "yourTeamCorrect")
                          then "got it right" else "got it wrong")
                     +:+ "!")))
  | Some TeamBattleFinished | Some TeamBattleEnded =>
      emit (SetGameState (finish data));;
      emit (SetShowRoundFeedback false);;
      emit (Toast "Battle Finished!"
              (VStr (if JS.truthy (JS.prop data "winner")
                     then JS.to_string (JS.prop (JS.prop data "winner") "name")
                          +:+ " wins!"
                     else "It's a draw!")))
  | Some TeamsUpdated | Some TeamUpdate =>
      when (JS.truthy (JS.prop data "teams"))
        (updateTeamsData (JS.prop data "teams"))
  | Some ErrorEvent =>
      emit (Toast "Error" (JS.prop data "message"))
  | None => mret tt
  end.

(** The [try] block of the handler. *)
Definition try_block (current : GameState) (event : MessageData)
  : Handler unit :=
  data ← eval (JSON_parse event);
  emit (ConsoleLog "Team Battle Game Event:" data);;
  ty ← eval (JS.get data "type");
  dispatch current data (event_type ty).

Definition handleMessage (current : GameState) (event : MessageData)
  : Handler unit :=
  try_catch (try_block current event)
            (fun error => emit (ConsoleError error)).

End Handler.

(** ** Rendering: applying the queued setters, then the effects *)

Definition with_gameState (g : GameState) (s : View) : View :=
  {| gameState := g;
     selectedAnswer := selectedAnswer s; hasSubmitted := hasSubmitted s;
     teamAnswer := teamAnswer s; memberAnswers := memberAnswers s;
     connected := connected s; suggestions := suggestions s;
     waitingForResults := waitingForResults s;
     correctAnswerId := correctAnswerId s;
     showRoundFeedback := showRoundFeedback s;
     lastRoundCorrect := lastRoundCorrect s |}.

Definition with_selectedAnswer (v : value) (s : View) : View :=
  {| gameState := gameState s;
     selectedAnswer := v; hasSubmitted := hasSubmitted s;
     teamAnswer := teamAnswer s; memberAnswers := memberAnswers s;
     connected := connected s; suggestions := suggestions s;
     waitingForResults := waitingForResults s;
     correctAnswerId := correctAnswerId s;
     showRoundFeedback := showRoundFeedback s;
     lastRoundCorrect := lastRoundCorrect s |}.

Definition with_hasSubmitted (b : bool) (s : View) : View :=
  {| gameState := gameState s;
     selectedAnswer := selectedAnswer s; hasSubmitted := b;
     teamAnswer := teamAnswer s; memberAnswers := memberAnswers s;
     connected := connected s; suggestions := suggestions s;
     waitingForResults := waitingForResults s;
     correctAnswerId := correctAnswerId s;
     showRoundFeedback := showRoundFeedback s;
     lastRoundCorrect := lastRoundCorrect s |}.

Definition with_teamAnswer (v : value) (s : View) : View :=
  {| gameState := gameState s;
     selectedAnswer := selectedAnswer s; hasSubmitted := hasSubmitted s;
     teamAnswer := v; memberAnswers := memberAnswers s;
     connected := connected s; suggestions := suggestions s;
     waitingForResults := waitingForResults s;
     correctAnswerId := correctAnswerId s;
     showRoundFeedback := showRoundFeedback s;
     lastRoundCorrect := lastRoundCorrect s |}.

Definition with_memberAnswers (m : MemberAnswers) (s : View) : View :=
  {| gameState := gameState s;
     selectedAnswer := selectedAnswer s; hasSubmitted := hasSubmitted s;
     teamAnswer := teamAnswer s; memberAnswers := m;
     connected := connected s; suggestions := suggestions s;
     waitingForResults := waitingForResults s;
     correctAnswerId := correctAnswerId s;
     showRoundFeedback := showRoundFeedback s;
     lastRoundCorrect := lastRoundCorrect s |}.

Definition with_connected (b : bool) (s : View) : View :=
  {| gameState := gameState s;
     selectedAnswer := selectedAnswer s; hasSubmitted := hasSubmitted s;
     teamAnswer := teamAnswer s; memberAnswers := memberAnswers s;
     connected := b; suggestions := suggestions s;
     waitingForResults := waitingForResults s;
     correctAnswerId := correctAnswerId s;
     showRoundFeedback := showRoundFeedback s;
     lastRoundCorrect := lastRoundCorrect s |}.

Definition with_suggestions (m : Suggestions) (s : View) : View :=
  {| gameState := gameState s;
     selectedAnswer := selectedAnswer s; hasSubmitted := hasSubmitted s;
     teamAnswer := teamAnswer s; memberAnswers := memberAnswers s;
     connected := connected s; suggestions := m;
     waitingForResults := waitingForResults s;
     correctAnswerId := correctAnswerId s;
     showRoundFeedback := showRoundFeedback s;
     lastRoundCorrect := lastRoundCorrect s |}.

Definition with_waitingForResults (b : bool) (s : View) : View :=
  {| gameState := gameState s;
     selectedAnswer := selectedAnswer s; hasSubmitted := hasSubmitted s;
     teamAnswer := teamAnswer s; memberAnswers := memberAnswers s;
     connected := connected s; suggestions := suggestions s;
     waitingForResults := b;
     correctAnswerId := correctAnswerId s;
     showRoundFeedback := showRoundFeedback s;
     lastRoundCorrect := lastRoundCorrect s |}.

Definition with_correctAnswerId (v : value) (s : View) : View :=
  {| gameState := gameState s;
     selectedAnswer := selectedAnswer s; hasSubmitted := hasSubmitted s;
     teamAnswer := teamAnswer s; memberAnswers := memberAnswers s;
     connected := connected s; suggestions := suggestions s;
     waitingForResults := waitingForResults s;
     correctAnswerId := v;
     showRoundFeedback := showRoundFeedback s;
     lastRoundCorrect := lastRoundCorrect s |}.

Definition with_showRoundFeedback (b : bool) (s : View) : View :=
  {| gameState := gameState s;
     selectedAnswer := selectedAnswer s; hasSubmitted := hasSubmitted s;
     teamAnswer := teamAnswer s; memberAnswers := memberAnswers s;
     connected := connected s; suggestions := suggestions s;
     waitingForResults := waitingForResults s;
     correctAnswerId := correctAnswerId s;
     showRoundFeedback := b;
     lastRoundCorrect := lastRoundCorrect s |}.

Definition with_lastRoundCorrect (o : option bool) (s : View) : View :=
  {| gameState := gameState s;
     selectedAnswer := selectedAnswer s; hasSubmitted := hasSubmitted s;
     teamAnswer := teamAnswer s; memberAnswers := memberAnswers s;
     connected := connected s; suggestions := suggestions s;
     waitingForResults := waitingForResults s;
     correctAnswerId := correctAnswerId s;
     showRoundFeedback := showRoundFeedback s;
     lastRoundCorrect := o |}.

(** One queued setter call applied to the state; console, toast and socket
    calls leave it alone. *)
Definition apply_action (a : Action) (s : View) : Result View :=
  match a with
  | SetConnected b => Ok (with_connected b s)
  | SetGameState f => g ← f (gameState s); Ok (with_gameState g s)
  | SetSelectedAnswer v => Ok (with_selectedAnswer v s)
  | SetHasSubmitted b => Ok (with_hasSubmitted b s)
  | SetTeamAnswer v => Ok (with_teamAnswer v s)
  | SetMemberAnswers f => Ok (with_memberAnswers (f (memberAnswers s)) s)
  | SetSuggestions f => m ← f (suggestions s); Ok (with_suggestions m s)
  | SetWaitingForResults b => Ok (with_waitingForResults b s)
  | SetCorrectAnswerId v => Ok (with_correctAnswerId v s)
  | SetShowRoundFeedback b => Ok (with_showRoundFeedback b s)
  | SetLastRoundCorrect o => Ok (with_lastRoundCorrect o s)
  | ConsoleLog _ _ | ConsoleError _ | Toast _ _ | Send _ => Ok s
  end.

Fixpoint flush (acts : list Action) (s : View) : Result View :=
  match acts with
  | [] => Ok s
  | a :: acts' => s' ← apply_action a s; flush acts' s'
  end.

Definition option_bool_eqb (a b : option bool) : bool :=
  match a, b with
  | None, None => true
  | Some x, Some y => Bool.eqb x y
  | _, _ => false
  end.

(** The effect on [lastRoundCorrect], after a render that started from
    [before]: when the cell changed and is not [null],
    [setShowRoundFeedback(true)]. *)
Definition run_effects (before after : View) : View :=
  if option_bool_eqb (lastRoundCorrect before) (lastRoundCorrect after)
  then after
  else match lastRoundCorrect after with
       | Some _ => with_showRoundFeedback true after
       | None => after
       end.

Definition commit (s : View) (h : Handler unit) : Result View :=
  s' ← flush (fst h) s; Ok (run_effects s s').

Section View.

Variable user : User.

(** One inbound socket message, up to the settled state after it. *)
Definition step (s : View) (event : MessageData) : Result View :=
  commit s (handleMessage user (gameState s) event).

Definition isTeamCaptain (s : View) : bool :=
  JS.strict_eq (JS.get_opt (playerTeam (gameState s)) "captainId")
               (VNum (user_id user)).

Definition handleMemberSelect (s : View) (answerId : string) : Handler unit :=
  if negb (JS.truthy (currentQuestion (gameState s)))
     || negb (JS.truthy (playerTeam (gameState s)))
  then mret tt
  else
    teamId ← eval (JS.get (playerTeam (gameState s)) "id");
    questionId ← eval (JS.get (currentQuestion (gameState s)) "id");
    emit (Send (TeamOptionSelected teamId questionId answerId
                  (user_id user) (user_username user)));;
    emit (SetSelectedAnswer (VStr answerId)).

Definition handleCaptainSubmit (s : View) (answerId : string) : Handler unit :=
  if negb (JS.truthy (currentQuestion (gameState s)))
     || negb (JS.truthy (playerTeam (gameState s)))
  then mret tt
  else if negb (isTeamCaptain s) then mret tt
  else
    teamId ← eval (JS.get (playerTeam (gameState s)) "id");
    questionId ← eval (JS.get (currentQuestion (gameState s)) "id");
    emit (Send (FinalizeTeamAnswer teamId questionId answerId)).

(** [onClose] of the feedback modal. *)
Definition onClose : Handler unit :=
  emit (SetShowRoundFeedback false);;
  emit (SetLastRoundCorrect None);;
  emit (SetCorrectAnswerId VNull).




(** What can happen to the mounted view. *)
Inductive Input : Type :=
| Message (event : MessageData)
| Close
| MemberSelect (answerId : string)
| CaptainSubmit (answerId : string).

Definition react (s : View) (i : Input) : Result View :=
  match i with
  | Message event => step s event
  | Close => commit s onClose
  | MemberSelect answerId => commit s (handleMemberSelect s answerId)
  | CaptainSubmit answerId => commit s (handleCaptainSubmit s answerId)
  end.

Fixpoint run (s : View) (inputs : list Input) : Result View :=
  match inputs with
  | [] => Ok s
  | i :: inputs' => s' ← react s i; run s' inputs'
  end.

End View.

(** ** TeamDisplay *)

Module TeamDisplay.

Inductive Role : Type :=
| captain
| member.

Inductive Side : Type :=
| A
| B.

Record TeamDisplayMember : Type := {
  userId : Z;
  username : string;
  role : Role;
}.

Record TeamDisplayTeam : Type := {
  id : string;
  name : string;
  captainId : Z;
  members : list TeamDisplayMember;
  teamSide : option Side;
}.

Section Props.

(** The type of the [onReady] callback. *)
Context {Callback : Type}.

Record TeamDisplayProps : Type := {
  team : TeamDisplayTeam;
  currentUserId : option Z;
  onReady : option Callback;
  title : option string;
  isUserTeam : option bool;
  isReady : option bool;
}.

(** The rendered tree, by its parts that depend on the props. *)
Record MemberRow : Type := {
  row_key : Z;
  row_username : string;
  row_crown : bool;
  row_label : string;
}.

Record Rendered : Type := {
  title_line : option string;
  heading : string;
  your_team_mark : bool;
  ready_mark : bool;
  ready_button : option Callback;
  rows : list MemberRow;
}.

(** Truthiness of an optional prop. *)
Definition given_true (o : option bool) : bool := default false o.

Definition isCaptain (p : TeamDisplayProps) : bool :=
  match currentUserId p with
  | Some uid =>
      if (uid =? 0)%Z then false else (captainId (team p) =? uid)%Z
  | None => false
  end.

Definition canReady (p : TeamDisplayProps) : bool :=
  bool_decide (onReady p ≠ None) && given_true (isUserTeam p) && isCaptain p.

Definition render_member (m : TeamDisplayMember) : MemberRow :=
  {| row_key := userId m;
     row_username := username m;
     row_crown := match role m with captain => true | member => false end;
     row_label := match role m with
                  | captain => "Captain"
                  | member => "Member"
                  end |}.

Definition render (p : TeamDisplayProps) : Rendered :=
  {| title_line := match title p with
                   | Some t => if String.eqb t "" then None else Some t
                   | None => None
                   end;
     heading := name (team p);
     your_team_mark := given_true (isUserTeam p);
     ready_mark := given_true (isReady p);
     ready_button := if canReady p then onReady p else None;
     rows := List.map render_member (members (team p)) |}.

Definition with_title (t : option string) (p : TeamDisplayProps)
  : TeamDisplayProps :=
  {| team := team p; currentUserId := currentUserId p;
     onReady := onReady p; title := t;
     isUserTeam := isUserTeam p; isReady := isReady p |}.

Definition without_title_line (r : Rendered) : Rendered :=
  {| title_line := None; heading := heading r;
     your_team_mark := your_team_mark r; ready_mark := ready_mark r;
     ready_button := ready_button r; rows := rows r |}.

End Props.

Arguments TeamDisplayProps : clear implicits.
Arguments Rendered : clear implicits.

End TeamDisplay.

(** ** Teams as the interfaces of the page type them *)

Module Typed.

Inductive Role : Type :=
| captain
| member.

Inductive Status : Type :=
| forming
| ready
| playing
| finished.

Record TeamMember : Type := {
  userId : Z;
  username : string;
  role : Role;
  joinedAt : string;
}.

Record Team : Type := {
  id : string;
  name : string;
  captainId : Z;
  gameSessionId : string;
  members : list TeamMember;
  score : Z;
  correctAnswers : Z;
  incorrectAnswers : Z;
  status : Status;
}.

Definition role_json (r : Role) : value :=
  VStr match r with captain => "captain" | member => "member" end.

Definition status_json (s : Status) : value :=
  VStr match s with
       | forming => "forming"
       | ready => "ready"
       | playing => "playing"
       | finished => "finished"
       end.

(** A [TeamMember] and a [Team] as they arrive in a payload. *)
Definition member_json (m : TeamMember) : value :=
  VObj [ ("userId", VNum (userId m));
         ("username", VStr (username m));
         ("role", role_json (role m));
         ("joinedAt", VStr (joinedAt m)) ].

Definition team_json (t : Team) : value :=
  VObj [ ("id", VStr (id t));
         ("name", VStr (name t));
         ("captainId", VNum (captainId t));
         ("gameSessionId", VStr (gameSessionId t));
         ("members", VArr (List.map member_json (members t)));
         ("score", VNum (score t));
         ("correctAnswers", VNum (correctAnswers t));
         ("incorrectAnswers", VNum (incorrectAnswers t));
         ("status", status_json (status t)) ].

Definition has_member (uid : Z) (t : Team) : bool :=
  existsb (fun m => (userId m =? uid)%Z) (members t).

(** A [teams_updated] / [team_update] payload carrying [ts]. *)
Definition teams_event (label : string) (ts : list Team) : value :=
  VObj [ ("type", VStr label);
         ("teams", VArr (List.map team_json ts)) ].

End Typed.

(** ** Vocabulary of the properties *)

(** [l] holds a suggestion by the member [uid]. *)
Definition suggests (uid : value) (l : list Suggestion) : bool :=
  existsb (fun s => JS.strict_eq (sg_userId s) uid) l.

(** The member [uid] is listed under at most one answer id. *)
Definition at_most_one_answer (uid : value) (m : Suggestions) : Prop :=
  ∀ a1 a2 l1 l2,
    m !! a1 = Some l1 → m !! a2 = Some l2 →
    suggests uid l1 = true → suggests uid l2 = true → a1 = a2.

(** The payload [data] carries the [type] tag [label]. *)
Definition has_type (label : string) (data : value) : Prop :=
  JS.prop data "type" = VStr label.


(** The value of the last [setCorrectAnswerId] call in a queue. *)
Fixpoint last_correctAnswerId (acts : list Action) : option value :=
  match acts with
  | [] => None
  | a :: acts' =>
      match last_correctAnswerId acts' with
      | Some v => Some v
      | None => match a with SetCorrectAnswerId v => Some v | _ => None end
      end
  end.

(** The queue holds no setter call at all. *)
Definition no_setter (acts : list Action) : Prop :=
  List.filter is_setter acts = [].



(** A member is listed under the answer id [a]. *)
Definition listed (uid : value) (m : Suggestions) (a : string) : Prop :=
  ∃ l, m !! a = Some l ∧ suggests uid l = true.

Definition one_answer_each (m : Suggestions) : Prop :=
  ∀ uid, at_most_one_answer uid m.

(** A queued action that cannot break [one_answer_each]. *)
Definition keeps_one_answer (a : Action) : Prop :=
  match a with
  | SetSuggestions f =>
      ∀ m m', f m = Ok m' → one_answer_each m → one_answer_each m'
  | _ => True
  end.

(** The payload [{type:'team_answer_finalized', finalAnswer:{answerId}}]. *)
Definition finalized_event (answerId : string) : value :=
  VObj [ ("type", VStr "team_answer_finalized");
         ("finalAnswer", VObj [("answerId", VStr answerId)]) ].

(** ** Sample users, teams and payloads *)

Definition bob : User := {| user_id := 7; user_username := "bob" |}.

Definition lions : Typed.Team := {|
  Typed.id := "t1";
  Typed.name := "Lions";
  Typed.captainId := 7;
  Typed.gameSessionId := "g1";
  Typed.members :=
    [ {| Typed.userId := 7; Typed.username := "bob";
         Typed.role := Typed.captain; Typed.joinedAt := "2025-01-01T10:00:00Z" |};
      {| Typed.userId := 8; Typed.username := "eve";
         Typed.role := Typed.member; Typed.joinedAt := "2025-01-01T10:01:00Z" |} ];
  Typed.score := 0;
  Typed.correctAnswers := 0;
  Typed.incorrectAnswers := 0;
  Typed.status := Typed.playing;
|}.

Definition tigers : Typed.Team := {|
  Typed.id := "t2";
  Typed.name := "Tigers";
  Typed.captainId := 9;
  Typed.gameSessionId := "g1";
  Typed.members :=
    [ {| Typed.userId := 9; Typed.username := "dan";
         Typed.role := Typed.captain; Typed.joinedAt := "2025-01-01T10:02:00Z" |} ];
  Typed.score := 0;
  Typed.correctAnswers := 0;
  Typed.incorrectAnswers := 0;
  Typed.status := Typed.playing;
|}.


Definition question_q1 : value :=
  VObj [ ("type", VStr "team_battle_question");
         ("question",
          VObj [ ("id", VStr "q1");
                 ("text", VStr "Who built the ark?");
                 ("answers",
                  VArr [ VObj [("id", VStr "a1"); ("text", VStr "Noah")];
                         VObj [("id", VStr "a2"); ("text", VStr "Moses")] ]);
                 ("category", VStr "Old Testament");
                 ("difficulty", VStr "Beginner") ]);
         ("questionNumber", VNum 2);
         ("totalQuestions", VNum 5);
         ("timeLimit", VNum 15) ].

Definition option_selected (answerId : value) (userId : value) (username : string)
  : value :=
  VObj [ ("type", VStr "team_option_selected");
         ("teamId", VStr "t1");
         ("answerId", answerId);
         ("userId", userId);
         ("username", VStr username) ].

(** Bob suggests [a1], Eve [a2], then Bob moves to [a2]. *)
Definition suggestion_round : list Input :=
  [ Message (Parsed question_q1);
    Message (Parsed (option_selected (VStr "a1") (VNum 7) "bob"));
    Message (Parsed (option_selected (VStr "a2") (VNum 8) "eve"));
    Message (Parsed (option_selected (VStr "a2") (VNum 7) "bob")) ].

(** Results of a round in which team [t1] answered [a1] correctly. *)
Definition results_a1 : value :=
  VObj [ ("type", VStr "team_battle_question_results");
         ("correctAnswer", VObj [("id", VStr "a1"); ("text", VStr "Noah")]);
         ("teamResults",
          VArr [ VObj [("teamId", VStr "t1"); ("correct", VBool true)];
                 VObj [("teamId", VStr "t2"); ("correct", VBool false)] ]);
         ("leaderboard",
          VArr [ VObj [("teamId", VStr "t1"); ("score", VNum 10)];
                 VObj [("teamId", VStr "t2"); ("score", VNum 0)] ]) ].

(** The same results with an empty string as the correct answer's id. *)
Definition results_empty_id : value :=
  VObj [ ("type", VStr "team_battle_question_results");
         ("correctAnswer", VObj [("id", VStr ""); ("text", VStr "Noah")]);
         ("teamResults", VArr []) ].

(** Results whose [teamResults] is one object instead of a list. *)
Definition results_teamResults_object : value :=
  VObj [ ("type", VStr "team_battle_question_results");
         ("correctAnswer", VObj [("id", VStr "a1"); ("text", VStr "Noah")]);
         ("teamResults", VObj [("teamId", VStr "t1"); ("correct", VBool true)]) ].

Definition battle_finished : value :=
  VObj [ ("type", VStr "team_battle_finished");
         ("finalScores", VArr [Typed.team_json lions; Typed.team_json tigers]);
         ("yourTeam", Typed.team_json lions);
         ("winner", Typed.team_json lions) ].

(** A round played to its results, the overlay never closed. *)
Definition round_to_results : list Input :=
  [ Message (Parsed (Typed.teams_event "teams_updated" [lions; tigers]));
    Message (Parsed question_q1);
    Message (Parsed (finalized_event "a1"));
    Message (Parsed results_a1) ].

(** The props of a [TeamDisplay] shown to the captain of the user's team. *)
Definition lions_display : TeamDisplay.TeamDisplayProps unit := {|
  TeamDisplay.team := {|
    TeamDisplay.id := "t1";
    TeamDisplay.name := "Lions";
    TeamDisplay.captainId := 7;
    TeamDisplay.members :=
      [ {| TeamDisplay.userId := 7; TeamDisplay.username := "bob";
           TeamDisplay.role := TeamDisplay.captain |} ];
    TeamDisplay.teamSide := Some TeamDisplay.A;
  |};
  TeamDisplay.currentUserId := Some 7%Z;
  TeamDisplay.onReady := Some tt;
  TeamDisplay.title := Some "Your side";
  TeamDisplay.isUserTeam := Some true;
  TeamDisplay.isReady := None;
|}.

(** ** What the page renders *)

Module Page.

(** [v[i]] for an index [i]. *)
Definition index (v : value) (i : nat) : value :=
  match v with
  | VArr l => default VUndefined (l !! i)
  | VStr s =>
      match String.list_ascii_of_string s !! i with
      | Some c => VStr (String c EmptyString)
      | None => VUndefined
      end
  | VObj fs => default VUndefined (JS.assoc_last (pretty i) fs)
  | _ => VUndefined
  end.

(** [v?.[i]] *)
Definition index_opt (v : value) (i : nat) : value :=
  if JS.nullish v then VUndefined else index v i.

(** The four phase views of the returned tree.  A view counts as rendered
    when its condition holds and its render function gets past its own
    guard. *)
Inductive PhaseView : Type :=
| WaitingView
| QuestionView
| ResultsView
| FinishedView.

Definition renders (g : GameState) (v : PhaseView) : bool :=
  match v with
  | WaitingView =>
      JS.strict_eq (phase g) (VStr "waiting")
      || (JS.strict_eq (phase g) (VStr "playing")
          && negb (JS.truthy (currentQuestion g)))
  | QuestionView =>
      JS.strict_eq (phase g) (VStr "question")
      && negb (negb (JS.truthy (currentQuestion g))
               || negb (JS.truthy (playerTeam g)))
  | ResultsView =>
      JS.strict_eq (phase g) (VStr "results")
      && negb (negb (JS.truthy (currentQuestion g)))
  | FinishedView =>
      JS.strict_eq (phase g) (VStr "finished")
  end.

(** [isQuestionLocked={Boolean(teamAnswer)}] and the waiting overlay of the
    question view. *)
Definition isQuestionLocked (s : View) : bool := JS.truthy (teamAnswer s).

Definition waiting_overlay (s : View) : bool :=
  renders (gameState s) QuestionView && waitingForResults s.

(** [renderFinishedPhase]: the teams whose tallies are shown, [yourTeam] and
    [opponentTeam]. *)
Definition finished_teams (g : GameState) : Result (value * value) :=
  let teams' := JS.or_else (teams g) (VArr []) in
  yourTeamFromScores ← JS.find teams' (fun team =>
    id ← JS.get team "id";
    Ok (JS.strict_eq id (JS.get_opt (playerTeam g) "id")));
  opponentFromScores ← JS.find teams' (other_than (playerTeam g));
  Ok (JS.or_else (JS.or_else yourTeamFromScores (playerTeam g)) (index teams' 0),
      JS.or_else (JS.or_else opponentFromScores (opposingTeam g)) (index teams' 1)).

(** The number in the score circle: [gameState.teams?.[0]?.score ?? 0]. *)
Definition score_circle (g : GameState) : value :=
  JS.coalesce (JS.get_opt (index_opt (teams g) 0) "score") (VNum 0).

(** A tally of the finished view: [team.score ?? 0] and the like. *)
Definition tally (team : value) (k : string) : value :=
  JS.coalesce (JS.prop team k) (VNum 0).

End Page.

(** ** Mounting the page *)

Module Mount.

(** [URLSearchParams.get]: the first value under [name], else [null]. *)
Fixpoint params_get (name : string) (params : list (string * string))
  : option string :=
  match params with
  | [] => None
  | (k, v) :: params' =>
      if String.eqb k name then Some v else params_get name params'
  end.

(** [params.get('session') ?? params.get('gameSessionId')] *)
Definition gameSessionId (params : list (string * string)) : option string :=
  match params_get "session" params with
  | Some v => Some v
  | None => params_get "gameSessionId" params
  end.

(** What the subscribing effect does on mount. *)
Inductive Outcome : Type :=
| Redirect (location : string)
| Subscribe (socketUser : Z) (requestSession : string) (requestUser : Z).

Definition effect (user : option User) (params : list (string * string))
  : Outcome :=
  match user, gameSessionId params with
  | Some u, Some sid =>
      if String.eqb sid "" then Redirect "/"
      else Subscribe (user_id u) sid (user_id u)
  | _, _ => Redirect "/"
  end.

(** What the component returns before the game tree. *)
Inductive Screen : Type :=
| PleaseLogIn
| InvalidSession
| Game.

Definition screen (user : option User) (params : list (string * string))
  : Screen :=
  match user with
  | None => PleaseLogIn
  | Some _ =>
      match gameSessionId params with
      | Some sid => if String.eqb sid "" then InvalidSession else Game
      | None => InvalidSession
      end
  end.

End Mount.

(** ** Typed results payloads *)

Module Round.

Record TeamResult : Type := {
  teamId : string;
  correct : bool;
}.

Record LeaderboardEntry : Type := {
  entryTeamId : string;
  entryScore : Z;
}.

Definition result_json (r : TeamResult) : value :=
  VObj [ ("teamId", VStr (teamId r)); ("correct", VBool (correct r)) ].

Definition entry_json (e : LeaderboardEntry) : value :=
  VObj [ ("teamId", VStr (entryTeamId e)); ("score", VNum (entryScore e)) ].

(** A ['team_battle_question_results'] payload. *)
Definition results_event (correctAnswer : value) (rs : list TeamResult)
    (lb : list LeaderboardEntry) : value :=
  VObj [ ("type", VStr "team_battle_question_results");
         ("correctAnswer", correctAnswer);
         ("teamResults", VArr (List.map result_json rs));
         ("leaderboard", VArr (List.map entry_json lb)) ].

Definition set_score (z : Z) (t : Typed.Team) : Typed.Team :=
  {| Typed.id := Typed.id t;
     Typed.name := Typed.name t;
     Typed.captainId := Typed.captainId t;
     Typed.gameSessionId := Typed.gameSessionId t;
     Typed.members := Typed.members t;
     Typed.score := z;
     Typed.correctAnswers := Typed.correctAnswers t;
     Typed.incorrectAnswers := Typed.incorrectAnswers t;
     Typed.status := Typed.status t |}.

(** The first leaderboard entry for a team id, and the team with its score. *)
Definition entry_for (lb : list LeaderboardEntry) (id : string)
  : option LeaderboardEntry :=
  List.find (fun e => String.eqb (entryTeamId e) id) lb.

Definition with_entry (lb : list LeaderboardEntry) (t : Typed.Team)
  : Typed.Team :=
  match entry_for lb (Typed.id t) with
  | Some e => set_score (entryScore e) t
  | None => t
  end.

(** The first result for a team id says whether the team was right. *)
Definition verdict (rs : list TeamResult) (id : string) : bool :=
  match List.find (fun r => String.eqb (teamId r) id) rs with
  | Some r => correct r
  | None => false
  end.

End Round.

(** ** More vocabulary *)

(** How often [uid] occurs in the list of one answer. *)
Definition occurrences (uid : value) (l : list Suggestion) : nat :=
  List.length (List.filter (fun s => JS.strict_eq (sg_userId s) uid) l).

(** No answer keeps an empty list, and no list names a member twice. *)
Definition tidy (m : Suggestions) : Prop :=
  ∀ a l, m !! a = Some l →
         l ≠ [] ∧ ∀ uid, (occurrences uid l ≤ 1)%nat.

Definition keeps_tidy (a : Action) : Prop :=
  match a with
  | SetSuggestions f => ∀ m m', f m = Ok m' → tidy m → tidy m'
  | _ => True
  end.

(** The key under which [select_option] files the suggestion of [data]. *)
Definition answer_key (data : value) : string :=
  JS.to_string (JS.prop data "answerId").

(** The inbound event with the fields of an outbound
    ['team_option_selected']. *)
Definition echo (o : Outbound) : value :=
  match o with
  | TeamOptionSelected teamId questionId answerId userId username =>
      VObj [ ("type", VStr "team_option_selected");
             ("teamId", teamId);
             ("questionId", questionId);
             ("answerId", VStr answerId);
             ("userId", VNum userId);
             ("username", VStr username) ]
  | FinalizeTeamAnswer teamId questionId answerId =>
      VObj [ ("type", VStr "finalize_team_answer");
             ("teamId", teamId);
             ("finalAnswer",
              VObj [ ("questionId", questionId);
                     ("answerId", VStr answerId) ]) ]
  end.

(** The [type] tags after which the handler writes [gameState.phase]. *)
Definition phases_set_by_handler : list value :=
  [ VStr "playing"; VStr "question"; VStr "finished" ].

(** A queued action that is not a write to the socket. *)
Definition sends_nothing (a : Action) : Prop :=
  match a with
  | Send _ => False
  | _ => True
  end.

(** A queued action that does not clear [connected]. *)
Definition keeps_connected (a : Action) : Prop :=
  match a with
  | SetConnected b => b = true
  | _ => True
  end.

(** ** More sample payloads *)

Definition ping : value := VObj [ ("type", VStr "ping") ].

Definition battle_started : value :=
  VObj [ ("type", VStr "team_battle_started") ].


(** A snapshot that moves to the question phase and names no teams. *)
Definition snapshot_without_teams : value :=
  VObj [ ("type", VStr "game_state_update");
         ("gameState",
          VObj [ ("phase", VStr "question");
                 ("currentQuestion", JS.prop question_q1 "question") ]) ].

Definition finalized_without_answer : value :=
  VObj [ ("type", VStr "team_answer_finalized");
         ("finalAnswer", VObj [("questionId", VStr "q1")]) ].

(** The state after the roster and the first question. *)
Definition lions_at_q1 : View :=
  with_gameState
    {| phase := VStr "question";
       currentQuestion := JS.prop question_q1 "question";
       questionNumber := VNum 2;
       totalQuestions := VNum 5;
       timeRemaining := VNum 15;
       teams := VArr [Typed.team_json lions; Typed.team_json tigers];
       playerTeam := Typed.team_json lions;
       opposingTeam := Typed.team_json tigers;
       finalScore := VUndefined;
       correct := VUndefined;
       incorrect := VUndefined |}
    initial_view.

Definition round_results : list Round.TeamResult :=
  [ {| Round.teamId := "t2"; Round.correct := false |};
    {| Round.teamId := "t1"; Round.correct := true |} ].

Definition round_leaderboard : list Round.LeaderboardEntry :=
  [ {| Round.entryTeamId := "t1"; Round.entryScore := 10 |} ].

(** * Properties *)

(** ** The handler monad *)

Lemma bind_eval_ok {A B} (a : A) (f : A → Handler B) :
  eval (Ok a) ≫= f = f a.
Proof. unfold mbind, Handler_bind, eval. by destruct (f a). Qed.

Lemma bind_eval_throw {A B} (e : Exn) (f : A → Handler B) :
  eval (Throw e) ≫= f = ([], Throw e).
Proof. reflexivity. Qed.

Lemma bind_emit {B} (a : Action) (f : unit → Handler B) :
  emit a ≫= f = (a :: fst (f tt), snd (f tt)).
Proof. unfold mbind, Handler_bind, emit. by destruct (f tt). Qed.

(** Evaluates [switch (data.type)] on a known tag. *)
Ltac pick_case :=
  cbn [event_type event_labels List.find fst snd String.eqb Ascii.eqb Bool.eqb
       fmap option_fmap option_map dispatch].

(** Splits on the next computation or guard a handler is waiting for ... *)
Ltac split_results :=
  repeat match goal with
    | |- context [eval ?r] =>
        lazymatch r with
        | Ok _ => fail
        | Throw _ => fail
        | _ => destruct r eqn:?
        end
    | |- context [when ?b _] =>
        lazymatch b with
        | true => fail
        | false => fail
        | _ => destruct b eqn:?
        end
    | |- context [if ?b then mret tt else _] =>
        lazymatch b with
        | true => fail
        | false => fail
        | _ => destruct b eqn:?
        end
    end.

(** ... and runs the binds that the split has unblocked. *)
Ltac run_handler :=
  repeat (progress (split_results;
                    rewrite ?bind_eval_ok, ?bind_eval_throw, ?bind_emit;
                    cbn beta)).

Lemma has_type_not_nullish label data :
  has_type label data → JS.nullish data = false.
Proof. unfold has_type. by destruct data. Qed.

Lemma handleMessage_typed user current label data :
  has_type label data →
  handleMessage user current (Parsed data)
  = try_catch
      (emit (ConsoleLog "Team Battle Game Event:" data);;
       dispatch user current data (event_type (VStr label)))
      (fun error => emit (ConsoleError error)).
Proof.
  intros Hty. unfold handleMessage, try_block, JS.get. cbn [JSON_parse].
  rewrite bind_eval_ok, (has_type_not_nullish _ _ Hty).
  rewrite !bind_emit. cbn beta. rewrite bind_eval_ok.
  unfold has_type in Hty. by rewrite Hty.
Qed.


(** ** The effect after a render *)

Lemma run_effects_same s s' :
  lastRoundCorrect s' = lastRoundCorrect s → run_effects s s' = s'.
Proof.
  intros H. unfold run_effects. rewrite H.
  by destruct (lastRoundCorrect s) as [[]|].
Qed.

Lemma correctAnswerId_run_effects s s' :
  correctAnswerId (run_effects s s') = correctAnswerId s'.
Proof.
  unfold run_effects.
  destruct (option_bool_eqb _ _); [done|]. by destruct (lastRoundCorrect s').
Qed.

Lemma suggestions_run_effects s s' :
  suggestions (run_effects s s') = suggestions s'.
Proof.
  unfold run_effects.
  destruct (option_bool_eqb _ _); [done|]. by destruct (lastRoundCorrect s').
Qed.

(** ** The question, finalize and selection events *)

(** C5: whatever the phase and the local state were, a
    ['team_battle_question'] event sets the phase to ['question'] and resets
    the per-round state: [selectedAnswer], [teamAnswer], [correctAnswerId]
    and [lastRoundCorrect] to [null], [hasSubmitted] and [waitingForResults]
    to [false], [memberAnswers] and [suggestions] to empty maps. *)
Theorem question_resets_round_state user s data :
  has_type "team_battle_question" data →
  ∃ s', step user s (Parsed data) = Ok s'
        ∧ phase (gameState s') = VStr "question"
        ∧ selectedAnswer s' = VNull
        ∧ teamAnswer s' = VNull
        ∧ correctAnswerId s' = VNull
        ∧ lastRoundCorrect s' = None
        ∧ hasSubmitted s' = false
        ∧ waitingForResults s' = false
        ∧ memberAnswers s' = ∅
        ∧ suggestions s' = ∅.
Proof.
  intros Hty. unfold step. rewrite (handleMessage_typed _ _ _ _ Hty).
  eexists. split; [reflexivity|].
  cbn [fst]. unfold run_effects.
  destruct (lastRoundCorrect s) as [b|]; cbn; repeat split; reflexivity.
Qed.

Lemma finalized_locks_question user s data :
  has_type "team_answer_finalized" data →
  JS.nullish (JS.prop data "finalAnswer") = false →
  step user s (Parsed data)
  = Ok (with_waitingForResults true
         (with_hasSubmitted true
           (with_teamAnswer (JS.prop (JS.prop data "finalAnswer") "answerId") s))).
Proof.
  intros Hty Hfa. unfold step. rewrite (handleMessage_typed _ _ _ _ Hty).
  pick_case.
  unfold JS.get. rewrite Hfa, !bind_emit, bind_eval_ok, !bind_emit.
  unfold commit. cbn. by rewrite run_effects_same.
Qed.

(** C7: the event [{type:'team_answer_finalized', finalAnswer:{answerId}}],
    for any answer id, sets [teamAnswer] to that id, [hasSubmitted] to
    [true] and [waitingForResults] to [true], from every state. *)
Theorem finalized_sets_team_answer user s answerId :
  ∃ s', step user s (Parsed (finalized_event answerId)) = Ok s'
        ∧ teamAnswer s' = VStr answerId
        ∧ hasSubmitted s' = true
        ∧ waitingForResults s' = true.
Proof.
  eexists. split.
  - by apply finalized_locks_question.
  - by cbn.
Qed.

(** C10: a ['team_option_selected'] event whose [teamId], [answerId] or
    [userId] is missing or falsy (a [userId] of 0, an empty [answerId]) is
    ignored: the handler calls no setter and the state, the suggestions map
    with it, is unchanged. *)
Theorem falsy_selection_ignored user s data :
  has_type "team_option_selected" data →
  JS.truthy (JS.prop data "teamId") = false
  ∨ JS.truthy (JS.prop data "answerId") = false
  ∨ JS.truthy (JS.prop data "userId") = false →
  no_setter (fst (handleMessage user (gameState s) (Parsed data)))
  ∧ step user s (Parsed data) = Ok s.
Proof.
  intros Hty Hfalsy. unfold step. rewrite (handleMessage_typed _ _ _ _ Hty).
  assert (negb (JS.truthy (JS.prop data "teamId"))
          || negb (JS.truthy (JS.prop data "answerId"))
          || negb (JS.truthy (JS.prop data "userId")) = true) as Hguard.
  { destruct Hfalsy as [H | [H | H]]; rewrite H; cbn;
      rewrite ?orb_true_r; reflexivity. }
  pick_case.
  rewrite Hguard, bind_emit. split; [reflexivity|].
  unfold commit. cbn. by rewrite run_effects_same.
Qed.

(** ** Errors in the handler *)




Lemma flush_no_setter acts s : no_setter acts → flush acts s = Ok s.
Proof.
  unfold no_setter. induction acts as [|a acts IH]; [done|].
  destruct a; cbn; try discriminate; exact IH.
Qed.



(** ** Suggestions: one answer per member *)

Lemma strict_eq_true a b : JS.strict_eq a b = true → a = b.
Proof.
  destruct a, b; simpl; try discriminate; try reflexivity.
  - intros H. apply Bool.eqb_prop in H. congruence.
  - intros H. apply Z.eqb_eq in H. congruence.
  - intros H. apply String.eqb_eq in H. congruence.
Qed.

Lemma suggests_app uid l1 l2 :
  suggests uid (l1 ++ l2) = suggests uid l1 || suggests uid l2.
Proof. apply existsb_app. Qed.

Lemma suggests_filter_other uid u l :
  suggests u (List.filter (fun s => negb (JS.strict_eq (sg_userId s) uid)) l) = true →
  suggests u l = true.
Proof.
  unfold suggests. rewrite !existsb_exists.
  intros (x & Hx & Hu). apply filter_In in Hx. exists x. tauto.
Qed.

Lemma suggests_filter_self uid l :
  suggests uid (List.filter (fun s => negb (JS.strict_eq (sg_userId s) uid)) l) = false.
Proof.
  induction l as [|x l IH]; [done|]. cbn.
  destruct (JS.strict_eq (sg_userId x) uid) eqn:E; cbn; [done|].
  by rewrite E.
Qed.

Lemma without_user_Some uid l l' :
  without_user uid l = Some l' →
  l' = List.filter (fun s => negb (JS.strict_eq (sg_userId s) uid)) l.
Proof.
  unfold without_user. destruct (List.filter _ l); [discriminate|]. congruence.
Qed.

Lemma listed_without_user uid u m a :
  listed u (omap (without_user uid) m) a →
  JS.strict_eq uid u = false ∧ listed u m a.
Proof.
  intros (l' & Hl' & Hu). rewrite lookup_omap in Hl'.
  destruct (m !! a) as [l|] eqn:Hl; [|discriminate]. cbn in Hl'.
  apply without_user_Some in Hl'. subst l'. split.
  - destruct (JS.strict_eq uid u) eqn:E; [|done].
    apply strict_eq_true in E. subst u.
    by rewrite suggests_filter_self in Hu.
  - exists l. split; [done|]. by eapply suggests_filter_other.
Qed.

(** After the updater the selecting member is listed under the chosen
    answer only, and nobody else moved. *)
Lemma select_option_listed data prev next u a :
  select_option data prev = Ok next →
  listed u next a →
  (JS.strict_eq (JS.prop data "userId") u = true
   ∧ a = JS.to_string (JS.prop data "answerId"))
  ∨ (JS.strict_eq (JS.prop data "userId") u = false ∧ listed u prev a).
Proof.
  unfold select_option.
  set (uid := JS.prop data "userId").
  set (key := JS.to_string (JS.prop data "answerId")).
  set (m := omap (without_user uid) prev).
  intros Hsel (l & Hl & Hu).
  assert (∃ l0, (m !! key = Some l0 ∨ (m !! key = None ∧ l0 = []))
                ∧ next = <[key := l0 ++ [{| sg_userId := uid;
                                            sg_username := JS.prop data "username" |}]]> m)
    as (l0 & Hl0 & ->).
  { destruct (m !! key) as [l0|] eqn:Hk.
    - cbn in Hsel. exists l0. split; [by left|]. congruence.
    - destruct (JS.inherited key); cbn in Hsel; [discriminate|].
      exists []. split; [by right|]. cbn. congruence. }
  destruct (decide (key = a)) as [<-|Hne].
  - rewrite lookup_insert_eq in Hl. injection Hl as <-.
    rewrite suggests_app in Hu. cbn in Hu. rewrite orb_false_r in Hu.
    destruct (JS.strict_eq uid u) eqn:E; [by left|]. right. split; [done|].
    rewrite orb_false_r in Hu.
    destruct Hl0 as [Hl0 | [_ ->]]; [|discriminate].
    apply (listed_without_user uid). by exists l0.
  - rewrite lookup_insert_ne in Hl by done. right.
    apply (listed_without_user uid). by exists l.
Qed.

Lemma at_most_one_listed uid m :
  at_most_one_answer uid m ↔ ∀ a1 a2, listed uid m a1 → listed uid m a2 → a1 = a2.
Proof.
  unfold at_most_one_answer, listed. split.
  - intros H a1 a2 (l1 & ? & ?) (l2 & ? & ?). eauto.
  - intros H a1 a2 l1 l2 ? ? ? ?. apply H; eauto.
Qed.

Lemma select_option_one_answer data prev next :
  select_option data prev = Ok next →
  one_answer_each prev → one_answer_each next.
Proof.
  intros Hsel Hinv u. apply at_most_one_listed. intros a1 a2 H1 H2.
  destruct (select_option_listed _ _ _ _ _ Hsel H1) as [[E1 ->]|[E1 L1]],
           (select_option_listed _ _ _ _ _ Hsel H2) as [[E2 ->]|[E2 L2]];
    try congruence.
  revert L1 L2. by apply at_most_one_listed.
Qed.

Lemma one_answer_each_empty : one_answer_each ∅.
Proof. intros u a1 a2 l1 l2 H. by rewrite lookup_empty in H. Qed.

Lemma flush_one_answer acts s s' :
  Forall keeps_one_answer acts →
  flush acts s = Ok s' →
  one_answer_each (suggestions s) → one_answer_each (suggestions s').
Proof.
  intros Hall. revert s. induction Hall as [|a acts Ha _ IH]; intros s.
  - cbn. by intros [= <-].
  - cbn [flush]. destruct (apply_action a s) as [s1|e] eqn:Hs1; [|discriminate].
    cbn. intros Hflush Hinv. apply (IH _ Hflush).
    destruct a; cbn in Hs1;
      try (injection Hs1 as <-; exact Hinv).
    + destruct (f (gameState s)); [|discriminate]. by injection Hs1 as <-.
    + destruct (f (suggestions s)) as [m|] eqn:Hf; [|discriminate].
      injection Hs1 as <-. cbn. by eapply Ha.
Qed.

Lemma commit_one_answer s h s' :
  Forall keeps_one_answer (fst h) →
  commit s h = Ok s' →
  one_answer_each (suggestions s) → one_answer_each (suggestions s').
Proof.
  unfold commit. intros Hall Hc Hinv.
  destruct (flush (fst h) s) as [s1|] eqn:Hf; [|discriminate].
  injection Hc as <-. rewrite suggestions_run_effects.
  by eapply flush_one_answer.
Qed.

Ltac keeps_one_answer_queue :=
  repeat constructor;
  lazymatch goal with
  | |- keeps_one_answer (SetSuggestions (select_option _)) =>
      intros m m'; apply select_option_one_answer
  | |- keeps_one_answer (SetSuggestions _) =>
      intros m m' [= <-] _; apply one_answer_each_empty
  | |- keeps_one_answer _ => exact I
  end.

Lemma handleMessage_keeps_one_answer user current event :
  Forall keeps_one_answer (fst (handleMessage user current event)).
Proof.
  destruct event as [|data]; [cbn; keeps_one_answer_queue|].
  unfold handleMessage, try_block. cbn [JSON_parse].
  rewrite bind_eval_ok, bind_emit. cbn beta.
  destruct (JS.get data "type") as [ty|]; [|cbn; keeps_one_answer_queue].
  rewrite bind_eval_ok.
  destruct (event_type ty) as [[]|]; cbn [dispatch];
    unfold updateGameState, updateTeamsData;
    run_handler; cbn; keeps_one_answer_queue.
Qed.

Lemma react_one_answer user s i s' :
  react user s i = Ok s' →
  one_answer_each (suggestions s) → one_answer_each (suggestions s').
Proof.
  destruct i as [event| |answerId|answerId]; cbn [react]; unfold step;
    apply commit_one_answer.
  - apply handleMessage_keeps_one_answer.
  - unfold onClose. run_handler. cbn. keeps_one_answer_queue.
  - unfold handleMemberSelect.
    destruct (_ || _); run_handler; cbn; keeps_one_answer_queue.
  - unfold handleCaptainSubmit.
    destruct (_ || _); [cbn; keeps_one_answer_queue|].
    destruct (negb _); run_handler; cbn; keeps_one_answer_queue.
Qed.

Lemma run_one_answer user inputs : ∀ s s',
  run user s inputs = Ok s' →
  one_answer_each (suggestions s) → one_answer_each (suggestions s').
Proof.
  induction inputs as [|i inputs IH]; intros s s'; cbn [run].
  - by intros [= <-].
  - destruct (react user s i) as [s1|] eqn:Hr; [|discriminate]. cbn.
    intros Hrun Hinv. apply (IH _ _ Hrun). by eapply react_one_answer.
Qed.

Lemma step_option_selected user s data :
  has_type "team_option_selected" data →
  JS.truthy (JS.prop data "teamId") = true →
  JS.truthy (JS.prop data "answerId") = true →
  JS.truthy (JS.prop data "userId") = true →
  step user s (Parsed data)
  = (m ← select_option data (suggestions s); Ok (with_suggestions m s)).
Proof.
  intros Hty H1 H2 H3. unfold step. rewrite (handleMessage_typed _ _ _ _ Hty).
  pick_case.
  rewrite H1, H2, H3. cbn [negb orb]. rewrite !bind_emit.
  unfold commit. cbn.
  destruct (select_option data (suggestions s)) as [m|]; [|done].
  cbn. by rewrite run_effects_same.
Qed.

(** C1: after any sequence of inputs from the initial state, every member
    is listed under at most one answer id; and after a
    ['team_option_selected'] event that passes the guard, from any state, the
    selecting member is listed under the selected answer only: the updater
    filters the member out of every list before it appends the new entry. *)
Theorem one_suggestion_per_member user :
  (∀ inputs s uid,
     run user initial_view inputs = Ok s →
     at_most_one_answer uid (suggestions s))
  ∧ (∀ s data s' a l,
       has_type "team_option_selected" data →
       JS.truthy (JS.prop data "teamId") = true →
       JS.truthy (JS.prop data "answerId") = true →
       JS.truthy (JS.prop data "userId") = true →
       step user s (Parsed data) = Ok s' →
       suggestions s' !! a = Some l →
       suggests (JS.prop data "userId") l = true →
       a = JS.to_string (JS.prop data "answerId")).
Proof.
  split.
  - intros inputs s uid Hrun.
    apply (run_one_answer _ _ _ _ Hrun). apply one_answer_each_empty.
  - intros s data s' a l Hty H1 H2 H3 Hstep Hl Hu.
    rewrite step_option_selected in Hstep by done.
    destruct (select_option data (suggestions s)) as [m|] eqn:Hsel;
      [|discriminate].
    injection Hstep as <-. cbn in Hl.
    destruct (select_option_listed _ _ _ (JS.prop data "userId") a Hsel)
      as [[_ ->]|[E _]]; [by exists l|done|].
    unfold suggests in Hu. apply existsb_exists in Hu as (x & Hx & Hxu).
    pose proof (strict_eq_true _ _ Hxu) as Heq. rewrite Heq in Hxu.
    congruence.
Qed.

(** ** Results, the overlay, the captain's submit *)

(** C2, amended: a ['team_battle_question_results'] event sets
    [correctAnswerId] to [correctAnswer.id] when that id is truthy, and to
    [null] when it is missing or falsy (an empty string, 0, [false],
    [null]).  The setter is called on every such event, also when the handler
    throws later on. *)
Theorem results_set_correct_answer_id user s data :
  has_type "team_battle_question_results" data →
  let id := JS.get_opt (JS.prop data "correctAnswer") "id" in
  last_correctAnswerId (fst (handleMessage user (gameState s) (Parsed data)))
  = Some (if JS.truthy id then id else VNull)
  ∧ (∀ s', step user s (Parsed data) = Ok s' →
           correctAnswerId s' = if JS.truthy id then id else VNull).
Proof.
  intros Hty id. unfold step, commit.
  rewrite (handleMessage_typed _ _ _ _ Hty).
  pick_case.
  run_handler; cbn; (split; [reflexivity|]); intros s'.
  - destruct (merge_results user data (gameState s)); cbn; [|discriminate].
    intros [= <-]. by rewrite correctAnswerId_run_effects.
  - intros [= <-]. by rewrite correctAnswerId_run_effects.
  - intros [= <-]. by rewrite correctAnswerId_run_effects.
Qed.



(** ** Teams: who plays, who opposes *)

Lemma has_user_team_json user t :
  has_user user (Typed.team_json t)
  = Ok (Typed.has_member (user_id user) t).
Proof.
  unfold has_user, Typed.has_member. cbn.
  induction (Typed.members t) as [|m ms IH]; [done|].
  cbn. destruct (Typed.userId m =? user_id user)%Z; [done|]. exact IH.
Qed.

Lemma other_than_team_json p t :
  other_than (Typed.team_json p) (Typed.team_json t)
  = Ok (negb (String.eqb (Typed.id t) (Typed.id p))).
Proof. reflexivity. Qed.

Lemma find_list_team_json (f : value → Result bool) (g : Typed.Team → bool) ts :
  (∀ t, f (Typed.team_json t) = Ok (g t)) →
  JS.find_list f (List.map Typed.team_json ts)
  = Ok (from_option Typed.team_json VUndefined (List.find g ts)).
Proof.
  intros Hfg. induction ts as [|t ts IH]; [done|].
  cbn. rewrite Hfg. cbn. by destruct (g t).
Qed.



(** ** TeamDisplay *)

(** C9: the Ready button is rendered only when the displayed team is the
    viewer's own ([isUserTeam]) and the viewer is its captain
    ([currentUserId] is [team.captainId]); otherwise it is left out.  It is
    rendered exactly when, besides, [onReady] is given and the id is not 0.
    Leaving [title] out changes the rendering by the title line only. *)
Theorem ready_button_only_for_own_captain {Callback : Type}
    (p : TeamDisplay.TeamDisplayProps Callback) :
  (TeamDisplay.ready_button (TeamDisplay.render p) ≠ None →
   TeamDisplay.isUserTeam p = Some true
   ∧ TeamDisplay.currentUserId p
     = Some (TeamDisplay.captainId (TeamDisplay.team p)))
  ∧ (¬ (TeamDisplay.isUserTeam p = Some true
        ∧ TeamDisplay.currentUserId p
          = Some (TeamDisplay.captainId (TeamDisplay.team p))) →
     TeamDisplay.ready_button (TeamDisplay.render p) = None)
  ∧ (TeamDisplay.ready_button (TeamDisplay.render p) ≠ None ↔
     TeamDisplay.onReady p ≠ None
     ∧ TeamDisplay.isUserTeam p = Some true
     ∧ TeamDisplay.currentUserId p
       = Some (TeamDisplay.captainId (TeamDisplay.team p))
     ∧ TeamDisplay.captainId (TeamDisplay.team p) ≠ 0%Z)
  ∧ (∀ t, TeamDisplay.render (TeamDisplay.with_title None p)
          = TeamDisplay.without_title_line
              (TeamDisplay.render (TeamDisplay.with_title (Some t) p))).
Proof.
  assert (TeamDisplay.ready_button (TeamDisplay.render p) ≠ None ↔
          TeamDisplay.onReady p ≠ None
          ∧ TeamDisplay.isUserTeam p = Some true
          ∧ TeamDisplay.currentUserId p
            = Some (TeamDisplay.captainId (TeamDisplay.team p))
          ∧ TeamDisplay.captainId (TeamDisplay.team p) ≠ 0%Z) as Hiff.
  { cbn [TeamDisplay.render TeamDisplay.ready_button].
    unfold TeamDisplay.canReady, TeamDisplay.isCaptain, TeamDisplay.given_true.
    destruct (TeamDisplay.onReady p) as [f|];
      destruct (TeamDisplay.isUserTeam p) as [[]|];
      destruct (TeamDisplay.currentUserId p) as [uid|]; cbn;
      try (split; [congruence | intros (? & ? & ? & ?); congruence]).
    destruct (Z.eqb_spec uid 0) as [->|Hz]; cbn.
    - split; [congruence | intros (_ & _ & [= E] & Hne); congruence].
    - destruct (Z.eqb_spec (TeamDisplay.captainId (TeamDisplay.team p)) uid)
        as [<-|Hne]; cbn.
      + split; [by intros _ | discriminate].
      + split; [congruence | intros (_ & _ & [= E] & _); congruence]. }
  split; [intros H; apply Hiff in H; tauto|].
  split; [|split; [exact Hiff | done]].
  intros Hnot.
  destruct (TeamDisplay.ready_button (TeamDisplay.render p)) as [f|]; [|done].
  destruct Hnot. assert (Some f ≠ None) as H by discriminate.
  apply Hiff in H. tauto.
Qed.

(** ** Concrete runs *)

(** The scenario of a question followed by Bob's first suggestion. *)
Example question_then_suggestion :
  ∃ s, run bob initial_view
         [ Message (Parsed question_q1);
           Message (Parsed (option_selected (VStr "a1") (VNum 7) "bob")) ]
       = Ok s
       ∧ suggestions s
         = {[ "a1" := [ {| sg_userId := VNum 7; sg_username := VStr "bob" |} ] ]}
       ∧ phase (gameState s) = VStr "question".
Proof. eexists. repeat split; vm_compute; reflexivity. Qed.

(** Bob suggests [a1], Eve [a2], Bob moves to [a2]: he is listed once. *)
Lemma one_suggestion_per_member_witness :
  ∃ s, run bob initial_view suggestion_round = Ok s
       ∧ suggestions s
         = {[ "a2" := [ {| sg_userId := VNum 8; sg_username := VStr "eve" |};
                        {| sg_userId := VNum 7; sg_username := VStr "bob" |} ] ]}
       ∧ at_most_one_answer (VNum 7) (suggestions s).
Proof.
  eexists. split; [vm_compute; reflexivity|]. split; [vm_compute; reflexivity|].
  apply (proj1 (one_suggestion_per_member bob) suggestion_round).
  vm_compute. reflexivity.
Defined.

(** C2 as stated fails: the server supplies the id [""] and
    [correctAnswerId] is [null]. *)
Lemma empty_correct_answer_id_is_dropped :
  JS.own (JS.prop results_empty_id "correctAnswer") "id" = Some (VStr "")
  ∧ ∃ s', step bob initial_view (Parsed results_empty_id) = Ok s'
          ∧ correctAnswerId s' = VNull.
Proof. split; [reflexivity|]. eexists. split; vm_compute; reflexivity. Qed.

Lemma results_set_correct_answer_id_witness :
  ∃ s', step bob initial_view (Parsed results_a1) = Ok s'
        ∧ correctAnswerId s' = VStr "a1".
Proof.
  eexists. split; [vm_compute; reflexivity|].
  apply (proj2 (results_set_correct_answer_id bob initial_view results_a1 eq_refl)).
  vm_compute. reflexivity.
Defined.





Lemma question_resets_round_state_witness :
  ∃ s', step bob (with_waitingForResults true
                   (with_hasSubmitted true
                     (with_teamAnswer (VStr "a2") initial_view)))
          (Parsed question_q1) = Ok s'
        ∧ phase (gameState s') = VStr "question"
        ∧ selectedAnswer s' = VNull
        ∧ teamAnswer s' = VNull
        ∧ correctAnswerId s' = VNull
        ∧ lastRoundCorrect s' = None
        ∧ hasSubmitted s' = false
        ∧ waitingForResults s' = false
        ∧ memberAnswers s' = ∅
        ∧ suggestions s' = ∅.
Proof. apply question_resets_round_state. reflexivity. Defined.



Lemma falsy_selection_ignored_witness :
  step bob initial_view (Parsed (option_selected (VStr "a1") (VNum 0) "bob"))
  = Ok initial_view
  ∧ step bob initial_view (Parsed (option_selected (VStr "") (VNum 7) "bob"))
    = Ok initial_view.
Proof.
  split.
  - apply (falsy_selection_ignored bob initial_view); [reflexivity|].
    right. right. reflexivity.
  - apply (falsy_selection_ignored bob initial_view); [reflexivity|].
    right. left. reflexivity.
Defined.


Lemma ready_button_only_for_own_captain_witness :
  TeamDisplay.isUserTeam lions_display = Some true
  ∧ TeamDisplay.currentUserId lions_display
    = Some (TeamDisplay.captainId (TeamDisplay.team lions_display)).
Proof.
  apply (proj1 (ready_button_only_for_own_captain lions_display)).
  discriminate.
Defined.

(** * Further properties *)

(** ** Messages the switch does not know *)

(** X1: a message whose [type] is none of the case labels (an unknown tag,
    no tag, a payload that is not an object) calls no setter and leaves the
    state as it was. *)
Theorem unknown_type_ignored user s data :
  event_type (JS.prop data "type") = None →
  no_setter (fst (handleMessage user (gameState s) (Parsed data)))
  ∧ step user s (Parsed data) = Ok s.
Proof.
  intros Hty.
  assert (no_setter (fst (handleMessage user (gameState s) (Parsed data))))
    as Hno.
  { unfold handleMessage, try_block, JS.get. cbn [JSON_parse].
    rewrite bind_eval_ok, bind_emit. cbn beta.
    destruct (JS.nullish data); [reflexivity|].
    rewrite bind_eval_ok, Hty. reflexivity. }
  split; [exact Hno|]. unfold step, commit.
  rewrite (flush_no_setter _ _ Hno). cbn. by rewrite run_effects_same.
Qed.

(** ** The phase *)

Lemma gameState_run_effects s s' :
  gameState (run_effects s s') = gameState s'.
Proof.
  unfold run_effects.
  destruct (option_bool_eqb _ _); [done|]. by destruct (lastRoundCorrect s').
Qed.

Lemma merge_results_phase user data prev g :
  merge_results user data prev = Ok g → phase g = phase prev.
Proof.
  unfold merge_results.
  destruct (if _ : bool then _ else _) as [ut|]; [|discriminate]. cbn.
  destruct (JS.find_opt ut (has_user user)) as [pt|]; [|discriminate]. cbn.
  destruct (JS.find_opt ut (other_than pt)) as [ot|]; [|discriminate]. cbn.
  by intros [= <-].
Qed.

(** X2: apart from ['game_state_update'], a message either keeps
    [gameState.phase] or sets it to ['playing'], ['question'] or
    ['finished']; so the phases ['results'] and ['ready'] are entered through
    a ['game_state_update'] only. *)
Theorem phase_written_by_handler user s event s' :
  step user s event = Ok s' →
  (∀ data, event = Parsed data → ¬ has_type "game_state_update" data) →
  phase (gameState s') = phase (gameState s)
  ∨ In (phase (gameState s')) phases_set_by_handler.
Proof.
  unfold step, commit. destruct event as [|data].
  { cbn. intros [= <-] _. left. by rewrite gameState_run_effects. }
  unfold handleMessage, try_block, JS.get. cbn [JSON_parse].
  rewrite bind_eval_ok.
  destruct (JS.nullish data) eqn:Hnull.
  { cbn. intros [= <-] _. left. by rewrite gameState_run_effects. }
  rewrite bind_emit. cbn beta. rewrite bind_eval_ok.
  destruct (event_type (JS.prop data "type")) as [ty|] eqn:Hty.
  2:{ cbn. intros [= <-] _. left. by rewrite gameState_run_effects. }
  destruct ty; cbn [dispatch]; unfold updateGameState, updateTeamsData;
    run_handler; cbn;
    try (intros [= <-] Hno; rewrite gameState_run_effects; cbn;
         first [ by left | right; cbn; tauto ]).
  - intros _ Hno. destruct (Hno data eq_refl).
    unfold has_type. destruct (JS.prop data "type") as [| | | |t| |];
      try discriminate.
    revert Hty. unfold event_type, event_labels. cbn [List.find fst].
    intros H.
    repeat match type of H with
      | context [String.eqb ?l t] =>
          destruct (String.eqb_spec l t) as [E|_];
          [subst t; cbn in H; first [discriminate H | reflexivity]|]
      end.
    discriminate H.
  - destruct (select_option data (suggestions s)); cbn; [|discriminate].
    intros [= <-] _. left. by rewrite gameState_run_effects.
  - destruct (merge_results user data (gameState s)) as [g|] eqn:Hg; cbn;
      [|discriminate].
    intros [= <-] _. left. rewrite gameState_run_effects. cbn.
    by eapply merge_results_phase.
Qed.

(** ** The end of the battle *)



(** ** Answers of teammates *)


(** ** Mounting *)

(** X5: the page shows the game exactly when the mount effect subscribed:
    the effect redirects home, and the component returns one of its two
    notices, in the same cases (no user, no session id, an empty one). *)
Theorem game_screen_iff_subscribed user params :
  Mount.screen user params = Mount.Game
  ↔ ∃ u sid, user = Some u
             ∧ Mount.gameSessionId params = Some sid
             ∧ sid ≠ ""
             ∧ Mount.effect user params
               = Mount.Subscribe (user_id u) sid (user_id u).
Proof.
  unfold Mount.screen, Mount.effect.
  destruct user as [u|]; [|split; [discriminate | by intros (? & ? & [=] & _)]].
  destruct (Mount.gameSessionId params) as [sid|];
    [|split; [discriminate | by intros (? & ? & _ & [=] & _)]].
  destruct (String.eqb_spec sid "") as [->|Hne].
  - split; [discriminate|]. intros (? & ? & _ & [= <-] & Hne & _). done.
  - split; [|done]. intros _. by exists u, sid.
Qed.

(** X6: a [session] parameter, even an empty one, hides [gameSessionId]:
    with [session] present the id is its first value, and when that is empty
    a logged-in user gets the invalid-session notice and the redirect,
    whatever [gameSessionId] holds. *)
Theorem session_parameter_wins u params v :
  Mount.params_get "session" params = Some v →
  Mount.gameSessionId params = Some v
  ∧ (v = "" →
     Mount.screen (Some u) params = Mount.InvalidSession
     ∧ Mount.effect (Some u) params = Mount.Redirect "/").
Proof.
  intros Hget. unfold Mount.screen, Mount.effect, Mount.gameSessionId.
  rewrite Hget. split; [done|]. by intros ->.
Qed.

(** ** Phase views *)

Lemma strict_eq_str v t : JS.strict_eq v (VStr t) = true ↔ v = VStr t.
Proof.
  destruct v; simpl; try (split; [discriminate | congruence]).
  rewrite String.eqb_eq. split; congruence.
Qed.

(** X7: at most one of the four phase views is rendered. *)
Theorem one_phase_view g v1 v2 :
  Page.renders g v1 = true → Page.renders g v2 = true → v1 = v2.
Proof.
  destruct v1, v2; try reflexivity; cbn;
    rewrite ?andb_true_iff, ?orb_true_iff, ?andb_true_iff, ?strict_eq_str;
    intros H1 H2; destruct_and?; destruct_or?; destruct_and?; congruence.
Qed.


(** ** More on the suggestions map *)

Lemma strict_eq_sym a b : JS.strict_eq a b = JS.strict_eq b a.
Proof.
  destruct a, b; simpl; try reflexivity.
  - by destruct b, b0.
  - apply Z.eqb_sym.
  - apply String.eqb_sym.
Qed.

Lemma occurrences_app uid l1 l2 :
  occurrences uid (l1 ++ l2) = (occurrences uid l1 + occurrences uid l2)%nat.
Proof. unfold occurrences. by rewrite List.filter_app, List.length_app. Qed.

Lemma occurrences_filter_le uid (P : Suggestion → bool) l :
  (occurrences uid (List.filter P l) ≤ occurrences uid l)%nat.
Proof.
  unfold occurrences. induction l as [|x l IH]; [done|]. cbn.
  destruct (P x); cbn; destruct (JS.strict_eq (sg_userId x) uid); cbn; lia.
Qed.

Lemma occurrences_removed uid l :
  occurrences uid
    (List.filter (fun s => negb (JS.strict_eq (sg_userId s) uid)) l) = 0%nat.
Proof.
  unfold occurrences. induction l as [|x l IH]; [done|]. cbn.
  destruct (JS.strict_eq (sg_userId x) uid) eqn:E; cbn; [exact IH|].
  by rewrite E.
Qed.

(** The shape of a successful update. *)
Lemma select_option_Ok data prev next :
  select_option data prev = Ok next →
  let uid := JS.prop data "userId" in
  let m := omap (without_user uid) prev in
  ∃ l0, (m !! answer_key data = Some l0
         ∨ (m !! answer_key data = None ∧ l0 = []
            ∧ JS.inherited (answer_key data) = false))
        ∧ next = <[answer_key data :=
                     l0 ++ [{| sg_userId := uid;
                               sg_username := JS.prop data "username" |}]]> m.
Proof.
  unfold select_option, answer_key. cbn zeta.
  set (uid := JS.prop data "userId").
  set (key := JS.to_string (JS.prop data "answerId")).
  set (m := omap (without_user uid) prev).
  intros Hsel. destruct (m !! key) as [l0|] eqn:Hk.
  - cbn in Hsel. exists l0. split; [by left|]. congruence.
  - destruct (JS.inherited key) eqn:Hi; cbn in Hsel; [discriminate|].
    exists []. split; [by right|]. cbn. congruence.
Qed.

Lemma lookup_without_user uid (prev : Suggestions) a l' :
  omap (without_user uid) prev !! a = Some l' →
  ∃ l, prev !! a = Some l
       ∧ l' = List.filter (fun s => negb (JS.strict_eq (sg_userId s) uid)) l
       ∧ l' ≠ [].
Proof.
  rewrite lookup_omap. destruct (prev !! a) as [l|]; [|discriminate]. cbn.
  intros H. exists l. split; [done|].
  pose proof (without_user_Some _ _ _ H) as ->. split; [done|].
  unfold without_user in H. by destruct (List.filter _ l).
Qed.

Lemma select_option_tidy data prev next :
  select_option data prev = Ok next → tidy prev → tidy next.
Proof.
  intros Hsel Htidy.
  destruct (select_option_Ok _ _ _ Hsel) as (l0 & Hl0 & ->).
  intros a l Hl.
  destruct (decide (answer_key data = a)) as [<-|Hne].
  - rewrite lookup_insert_eq in Hl. injection Hl as <-.
    split; [by destruct l0|]. intros u. rewrite occurrences_app.
    destruct Hl0 as [Hl0 | (_ & -> & _)].
    + apply lookup_without_user in Hl0 as (l & Hl & -> & _).
      destruct (Htidy _ _ Hl) as [_ Hocc].
      unfold occurrences at 2. cbn.
      destruct (JS.strict_eq (JS.prop data "userId") u) eqn:E; cbn.
      * apply strict_eq_true in E. subst u. rewrite occurrences_removed. lia.
      * pose proof (occurrences_filter_le u
          (fun s => negb (JS.strict_eq (sg_userId s) (JS.prop data "userId"))) l).
        specialize (Hocc u). lia.
    + unfold occurrences. cbn.
      destruct (JS.strict_eq (JS.prop data "userId") u); cbn; lia.
  - rewrite lookup_insert_ne in Hl by done.
    apply lookup_without_user in Hl as (l1 & Hl1 & -> & Hne').
    split; [done|]. intros u. destruct (Htidy _ _ Hl1) as [_ Hocc].
    pose proof (occurrences_filter_le u
      (fun s => negb (JS.strict_eq (sg_userId s) (JS.prop data "userId"))) l1).
    specialize (Hocc u). lia.
Qed.

Lemma flush_tidy acts s s' :
  Forall keeps_tidy acts →
  flush acts s = Ok s' →
  tidy (suggestions s) → tidy (suggestions s').
Proof.
  intros Hall. revert s. induction Hall as [|a acts Ha _ IH]; intros s.
  - cbn. by intros [= <-].
  - cbn [flush]. destruct (apply_action a s) as [s1|e] eqn:Hs1; [|discriminate].
    cbn. intros Hflush Hinv. apply (IH _ Hflush).
    destruct a; cbn in Hs1;
      try (injection Hs1 as <-; exact Hinv).
    + destruct (f (gameState s)); [|discriminate]. by injection Hs1 as <-.
    + destruct (f (suggestions s)) as [m|] eqn:Hf; [|discriminate].
      injection Hs1 as <-. cbn. by eapply Ha.
Qed.

Ltac keeps_tidy_queue :=
  repeat lazymatch goal with
    | |- Forall _ [] => constructor
    | |- Forall _ (_ :: _) => constructor
    end;
  lazymatch goal with
  | |- keeps_tidy (SetSuggestions (select_option _)) =>
      intros m m'; apply select_option_tidy
  | |- keeps_tidy (SetSuggestions _) =>
      intros m m' [= <-] _; intros a l Hl; by rewrite lookup_empty in Hl
  | |- keeps_tidy _ => exact I
  end.

Lemma handleMessage_keeps_tidy user current event :
  Forall keeps_tidy (fst (handleMessage user current event)).
Proof.
  destruct event as [|data]; [cbn; keeps_tidy_queue|].
  unfold handleMessage, try_block. cbn [JSON_parse].
  rewrite bind_eval_ok, bind_emit. cbn beta.
  destruct (JS.get data "type") as [ty|]; [|cbn; keeps_tidy_queue].
  rewrite bind_eval_ok.
  destruct (event_type ty) as [[]|]; cbn [dispatch];
    unfold updateGameState, updateTeamsData;
    run_handler; cbn; keeps_tidy_queue.
Qed.

Lemma react_tidy user s i s' :
  react user s i = Ok s' →
  tidy (suggestions s) → tidy (suggestions s').
Proof.
  assert (∀ h, Forall keeps_tidy (fst h) → commit s h = Ok s' →
               tidy (suggestions s) → tidy (suggestions s')) as Hcommit.
  { unfold commit. intros h Hall Hc Hinv.
    destruct (flush (fst h) s) as [s1|] eqn:Hf; [|discriminate].
    injection Hc as <-. rewrite suggestions_run_effects.
    by eapply flush_tidy. }
  destruct i as [event| |answerId|answerId]; cbn [react]; unfold step;
    apply Hcommit.
  - apply handleMessage_keeps_tidy.
  - unfold onClose. run_handler. cbn. keeps_tidy_queue.
  - unfold handleMemberSelect.
    destruct (_ || _); run_handler; cbn; keeps_tidy_queue.
  - unfold handleCaptainSubmit.
    destruct (_ || _); [cbn; keeps_tidy_queue|].
    destruct (negb _); run_handler; cbn; keeps_tidy_queue.
Qed.

(** X9: after any sequence of inputs from the initial state, no answer id
    of the suggestions map holds an empty list (an answer nobody suggests
    has no entry), and no list names the same member twice. *)
Theorem suggestions_stay_tidy user inputs s a l :
  run user initial_view inputs = Ok s →
  suggestions s !! a = Some l →
  l ≠ [] ∧ ∀ uid, (occurrences uid l ≤ 1)%nat.
Proof.
  intros Hrun. assert (tidy (suggestions s)) as Ht; [|by apply Ht].
  assert (tidy (suggestions initial_view)) as H0
    by (intros ? ? H; cbn in H; by rewrite lookup_empty in H).
  revert Hrun H0. generalize initial_view. clear a l.
  induction inputs as [|i inputs IH]; intros s0; cbn [run].
  - by intros [= <-].
  - destruct (react user s0 i) as [s1|] eqn:Hr; [|discriminate]. cbn.
    intros Hrun H0. apply (IH _ Hrun). by eapply react_tidy.
Qed.

Lemma filter_removed_idem uid l :
  List.filter (fun s => negb (JS.strict_eq (sg_userId s) uid))
    (List.filter (fun s => negb (JS.strict_eq (sg_userId s) uid)) l)
  = List.filter (fun s => negb (JS.strict_eq (sg_userId s) uid)) l.
Proof.
  induction l as [|x l IH]; [done|]. cbn.
  destruct (negb _) eqn:E; cbn; [|exact IH]. rewrite E. by f_equal.
Qed.

Lemma without_user_idem uid (m : Suggestions) :
  omap (without_user uid) (omap (without_user uid) m)
  = omap (without_user uid) m.
Proof.
  apply map_eq. intros a. rewrite !lookup_omap.
  destruct (m !! a) as [l|]; [|done]. cbn.
  destruct (without_user uid l) as [l'|] eqn:H; [|done]. cbn.
  pose proof (without_user_Some _ _ _ H) as ->.
  unfold without_user in *. rewrite filter_removed_idem.
  by destruct (List.filter _ l).
Qed.

Lemma select_option_again data prev next :
  JS.strict_eq (JS.prop data "userId") (JS.prop data "userId") = true →
  select_option data prev = Ok next →
  select_option data next = Ok next.
Proof.
  intros Hprim Hsel.
  destruct (select_option_Ok _ _ _ Hsel) as (l0 & Hl0 & Hnext).
  cbn zeta in *.
  set (uid := JS.prop data "userId") in *.
  set (m := omap (without_user uid) prev) in *.
  assert (omap (without_user uid) next = m) as Hm.
  { apply map_eq. intros a. subst next. rewrite lookup_omap.
    destruct (decide (answer_key data = a)) as [<-|Hne].
    - rewrite lookup_insert_eq. cbn. unfold without_user.
      rewrite List.filter_app. cbn. rewrite Hprim. cbn. rewrite app_nil_r.
      destruct Hl0 as [Hl0 | (Hl0 & -> & _)]; rewrite Hl0; [|done].
      apply lookup_without_user in Hl0 as (l & _ & -> & Hne).
      rewrite filter_removed_idem.
      by destruct (List.filter _ l).
    - rewrite lookup_insert_ne by done. rewrite <- lookup_omap.
      unfold m. by rewrite without_user_idem. }
  unfold select_option. fold uid. rewrite Hm. fold (answer_key data).
  destruct Hl0 as [Hl0 | (Hl0 & -> & Hi)]; rewrite Hl0.
  - cbn. by rewrite Hnext.
  - rewrite Hi. cbn. by rewrite Hnext.
Qed.

Lemma step_option_dropped user s data :
  has_type "team_option_selected" data →
  JS.truthy (JS.prop data "teamId")
  && JS.truthy (JS.prop data "answerId")
  && JS.truthy (JS.prop data "userId") = false →
  step user s (Parsed data) = Ok s.
Proof.
  intros Hty Hguard. unfold step. rewrite (handleMessage_typed _ _ _ _ Hty).
  pick_case.
  assert (negb (JS.truthy (JS.prop data "teamId"))
          || negb (JS.truthy (JS.prop data "answerId"))
          || negb (JS.truthy (JS.prop data "userId")) = true) as ->.
  { rewrite <- !negb_andb. by rewrite Hguard. }
  rewrite bind_emit. unfold commit. cbn. by rewrite run_effects_same.
Qed.

(** X10: a ['team_option_selected'] event delivered twice in a row has the
    effect of one delivery (for a [userId] that is a number, a string or a
    boolean). *)
Theorem selection_is_idempotent user s data s1 :
  has_type "team_option_selected" data →
  JS.strict_eq (JS.prop data "userId") (JS.prop data "userId") = true →
  step user s (Parsed data) = Ok s1 →
  step user s1 (Parsed data) = Ok s1.
Proof.
  intros Hty Hprim Hstep.
  destruct (JS.truthy (JS.prop data "teamId")
            && JS.truthy (JS.prop data "answerId")
            && JS.truthy (JS.prop data "userId")) eqn:Hguard.
  - apply andb_true_iff in Hguard as [Hguard H3].
    apply andb_true_iff in Hguard as [H1 H2].
    rewrite step_option_selected in Hstep |- * by done.
    destruct (select_option data (suggestions s)) as [m|] eqn:Hsel;
      [|discriminate].
    injection Hstep as <-. cbn.
    by rewrite (select_option_again _ _ _ Hprim Hsel).
  - rewrite step_option_dropped in Hstep by done. injection Hstep as <-.
    by apply step_option_dropped.
Qed.

Lemma listed_kept data prev next u a :
  select_option data prev = Ok next →
  JS.strict_eq (JS.prop data "userId") u = false →
  listed u prev a → listed u next a.
Proof.
  intros Hsel Hu (l & Hl & Hs).
  destruct (select_option_Ok _ _ _ Hsel) as (l0 & Hl0 & ->). cbn zeta in *.
  set (uid := JS.prop data "userId") in *.
  set (l' := List.filter (fun s => negb (JS.strict_eq (sg_userId s) uid)) l).
  assert (suggests u l' = true) as Hs'.
  { unfold suggests in *. apply existsb_exists in Hs as (x & Hx & Hxu).
    apply existsb_exists. exists x. split; [|done]. apply filter_In.
    split; [done|]. apply strict_eq_true in Hxu. rewrite Hxu.
    by rewrite strict_eq_sym, Hu. }
  assert (omap (without_user uid) prev !! a = Some l') as Hm.
  { rewrite lookup_omap, Hl. cbn. unfold without_user. fold l'.
    destruct l'; [discriminate|done]. }
  destruct (decide (answer_key data = a)) as [<-|Hne].
  - destruct Hl0 as [Hl0 | [Hl0 _]]; [|congruence].
    rewrite Hm in Hl0. injection Hl0 as <-.
    eexists. split; [apply lookup_insert_eq|].
    by rewrite suggests_app, Hs'.
  - exists l'. split; [|done]. by rewrite lookup_insert_ne.
Qed.

(** X11: a selection moves nobody else: a member other than the sender is
    listed under an answer after the event exactly when he was before. *)
Theorem selection_keeps_others user s data s' u a :
  has_type "team_option_selected" data →
  JS.strict_eq (JS.prop data "userId") u = false →
  step user s (Parsed data) = Ok s' →
  (listed u (suggestions s') a ↔ listed u (suggestions s) a).
Proof.
  intros Hty Hu Hstep.
  destruct (JS.truthy (JS.prop data "teamId")
            && JS.truthy (JS.prop data "answerId")
            && JS.truthy (JS.prop data "userId")) eqn:Hguard.
  - apply andb_true_iff in Hguard as [Hguard H3].
    apply andb_true_iff in Hguard as [H1 H2].
    rewrite step_option_selected in Hstep by done.
    destruct (select_option data (suggestions s)) as [m|] eqn:Hsel;
      [|discriminate].
    injection Hstep as <-. cbn. split.
    + intros H. destruct (select_option_listed _ _ _ _ _ Hsel H)
        as [[E _]|[_ H']]; [congruence|done].
    + apply (listed_kept data _ _ _ _ Hsel Hu).
  - rewrite step_option_dropped in Hstep by done. by injection Hstep as <-.
Qed.


(** ** Selecting an answer, and the echo of the selection *)

(** X13: when a question and a player team with a truthy id are loaded, the
    user's id is not 0 and the answer id is not empty (nor the name of an
    [Object.prototype] member), [handleMemberSelect] sends one
    ['team_option_selected'] event and highlights the answer; and when that
    event comes back from the server, the user is listed last under the
    answer, by name, and the highlight stands. *)
Theorem own_selection_echo user s answerId :
  JS.truthy (currentQuestion (gameState s)) = true →
  JS.truthy (playerTeam (gameState s)) = true →
  JS.truthy (JS.prop (playerTeam (gameState s)) "id") = true →
  answerId ≠ "" →
  user_id user ≠ 0%Z →
  JS.inherited answerId = false →
  ∃ o s1 s2 l,
    fst (handleMemberSelect user s answerId)
    = [Send o; SetSelectedAnswer (VStr answerId)]
    ∧ react user s (MemberSelect answerId) = Ok s1
    ∧ step user s1 (Parsed (echo o)) = Ok s2
    ∧ selectedAnswer s2 = VStr answerId
    ∧ suggestions s2 !! answerId
      = Some (l ++ [{| sg_userId := VNum (user_id user);
                       sg_username := VStr (user_username user) |}]).
Proof.
  intros Hq Hp Hid Ha Hu Hi.
  assert (JS.nullish (playerTeam (gameState s)) = false) as Hpn
    by (by destruct (playerTeam (gameState s))).
  assert (JS.nullish (currentQuestion (gameState s)) = false) as Hqn
    by (by destruct (currentQuestion (gameState s))).
  assert (handleMemberSelect user s answerId
          = ([Send (TeamOptionSelected
                      (JS.prop (playerTeam (gameState s)) "id")
                      (JS.prop (currentQuestion (gameState s)) "id")
                      answerId (user_id user) (user_username user));
              SetSelectedAnswer (VStr answerId)], Ok tt)) as Hh.
  { unfold handleMemberSelect, JS.get. rewrite Hq, Hp, Hpn, Hqn. cbn [negb orb].
    by rewrite !bind_eval_ok, !bind_emit. }
  exists (TeamOptionSelected
            (JS.prop (playerTeam (gameState s)) "id")
            (JS.prop (currentQuestion (gameState s)) "id")
            answerId (user_id user) (user_username user)),
         (with_selectedAnswer (VStr answerId) s).
  set (ev := echo _).
  assert (has_type "team_option_selected" ev) as Hty by reflexivity.
  assert (step user (with_selectedAnswer (VStr answerId) s) (Parsed ev)
          = (m ← select_option ev (suggestions s);
             Ok (with_suggestions m (with_selectedAnswer (VStr answerId) s))))
    as Hstep.
  { rewrite step_option_selected; [reflexivity|done|exact Hid| |]; cbn.
    - by destruct (String.eqb_spec answerId "").
    - by destruct (Z.eqb_spec (user_id user) 0). }
  set (entry := {| sg_userId := VNum (user_id user);
                   sg_username := VStr (user_username user) |}).
  set (m := omap (without_user (VNum (user_id user))) (suggestions s)).
  assert (select_option ev (suggestions s)
          = (list' ← match m !! answerId with
                     | Some l => Ok l
                     | None => if JS.inherited answerId
                               then Throw TypeError else Ok []
                     end;
             Ok (<[answerId := list' ++ [entry]]> m))) as Hsel by reflexivity.
  rewrite Hsel in Hstep. clear Hsel.
  assert (react user s (MemberSelect answerId)
          = Ok (with_selectedAnswer (VStr answerId) s)) as Hreact.
  { cbn [react]. unfold commit. rewrite Hh. cbn. by rewrite run_effects_same. }
  destruct (m !! answerId) as [l0|] eqn:Hk.
  - cbn in Hstep. exists (with_suggestions (<[answerId := l0 ++ [entry]]> m)
                            (with_selectedAnswer (VStr answerId) s)), l0.
    split; [by rewrite Hh|]. split; [exact Hreact|]. split; [exact Hstep|].
    cbn. split; [done|]. apply lookup_insert_eq.
  - rewrite Hi in Hstep. cbn in Hstep.
    exists (with_suggestions (<[answerId := [entry]]> m)
              (with_selectedAnswer (VStr answerId) s)), [].
    split; [by rewrite Hh|]. split; [exact Hreact|]. split; [exact Hstep|].
    cbn. split; [done|]. apply lookup_insert_eq.
Qed.

(** ** The results of a round *)

Lemma find_list_encoded {A} (enc : A → value) (f : value → Result bool)
    (g : A → bool) (l : list A) :
  (∀ x, f (enc x) = Ok (g x)) →
  JS.find_list f (List.map enc l)
  = Ok (from_option enc VUndefined (List.find g l)).
Proof.
  intros Hfg. induction l as [|x l IH]; [done|].
  cbn. rewrite Hfg. cbn. by destruct (g x).
Qed.

Lemma map_list_encoded {A} (enc : A → value) (f : value → Result value)
    (g : A → A) (l : list A) :
  (∀ x, f (enc x) = Ok (enc (g x))) →
  JS.map_list f (List.map enc l) = Ok (List.map enc (List.map g l)).
Proof.
  intros Hfg. induction l as [|x l IH]; [done|].
  cbn. rewrite Hfg. cbn. by rewrite IH.
Qed.

Lemma has_member_with_entry uid lb t :
  Typed.has_member uid (Round.with_entry lb t) = Typed.has_member uid t.
Proof. unfold Round.with_entry. by destruct (Round.entry_for lb _). Qed.

Lemma id_with_entry lb t : Typed.id (Round.with_entry lb t) = Typed.id t.
Proof. unfold Round.with_entry. by destruct (Round.entry_for lb _). Qed.

(** The leaderboard callback on a typed team. *)
Lemma merge_team_encoded lb t :
  (lb' ← JS.find (VArr (List.map Round.entry_json lb)) (fun entry =>
            a ← JS.get entry "teamId";
            b ← JS.get (Typed.team_json t) "id";
            Ok (JS.strict_eq a b));
   if JS.truthy lb'
   then Ok (VObj (JS.set_member "score" (JS.prop lb' "score")
                    (JS.spread_members (Typed.team_json t))))
   else Ok (Typed.team_json t))
  = Ok (Typed.team_json (Round.with_entry lb t)).
Proof.
  unfold JS.find.
  rewrite (find_list_encoded Round.entry_json _
             (fun e => String.eqb (Round.entryTeamId e) (Typed.id t)))
    by reflexivity.
  unfold Round.with_entry, Round.entry_for.
  by destruct (List.find _ lb).
Qed.

(** What a typed results event does to a typed state. *)
Lemma step_results_typed user s ts p ca rs lb :
  teams (gameState s) = VArr (List.map Typed.team_json ts) →
  playerTeam (gameState s) = Typed.team_json p →
  Typed.id p ≠ "" →
  let ts' := List.map (Round.with_entry lb) ts in
  let g := gameState s in
  step user s (Parsed (Round.results_event ca rs lb))
  = Ok (run_effects s
          (with_gameState
             {| phase := phase g;
                currentQuestion := currentQuestion g;
                questionNumber := questionNumber g;
                totalQuestions := totalQuestions g;
                timeRemaining := timeRemaining g;
                teams := VArr (List.map Typed.team_json ts');
                playerTeam :=
                  Typed.team_json
                    (default p (List.find (Typed.has_member (user_id user)) ts'));
                opposingTeam :=
                  match List.find (Typed.has_member (user_id user)) ts' with
                  | Some p' =>
                      from_option Typed.team_json (opposingTeam g)
                        (List.find (fun t => negb (String.eqb (Typed.id t)
                                                     (Typed.id p'))) ts')
                  | None =>
                      from_option Typed.team_json (opposingTeam g) (head ts')
                  end;
                finalScore := finalScore g;
                correct := correct g;
                incorrect := incorrect g |}
             (with_lastRoundCorrect (Some (Round.verdict rs (Typed.id p)))
                (with_correctAnswerId (JS.or_else (JS.get_opt ca "id") VNull)
                   (with_waitingForResults false s))))).
Proof.
  intros Hteams Hplayer Hid ts' G. subst G.
  assert (merge_results user (Round.results_event ca rs lb) (gameState s)
          = Ok (gameState
                  (with_gameState
                     {| phase := phase (gameState s);
                        currentQuestion := currentQuestion (gameState s);
                        questionNumber := questionNumber (gameState s);
                        totalQuestions := totalQuestions (gameState s);
                        timeRemaining := timeRemaining (gameState s);
                        teams := VArr (List.map Typed.team_json ts');
                        playerTeam :=
                          Typed.team_json
                            (default p (List.find
                                          (Typed.has_member (user_id user)) ts'));
                        opposingTeam :=
                          match List.find (Typed.has_member (user_id user)) ts'
                          with
                          | Some p' =>
                              from_option Typed.team_json (opposingTeam (gameState s))
                                (List.find (fun t =>
                                   negb (String.eqb (Typed.id t) (Typed.id p')))
                                   ts')
                          | None =>
                              from_option Typed.team_json (opposingTeam (gameState s))
                                (head ts')
                          end;
                        finalScore := finalScore (gameState s);
                        correct := correct (gameState s);
                        incorrect := incorrect (gameState s) |} s))) as Hmerge.
  { unfold merge_results.
    assert (JS.prop (Round.results_event ca rs lb) "leaderboard"
            = VArr (List.map Round.entry_json lb)) as -> by reflexivity.
    rewrite Hteams. cbn [JS.truthy andb JS.map].
    rewrite (map_list_encoded Typed.team_json _ (Round.with_entry lb))
      by (intros t; apply merge_team_encoded).
    fold ts'. cbn [mbind Result_bind].
    unfold JS.find_opt. cbn [JS.nullish JS.find].
    rewrite (find_list_team_json _ _ ts' (has_user_team_json user)).
    cbn [mbind Result_bind].
    destruct (List.find (Typed.has_member (user_id user)) ts') as [p'|];
      cbn [from_option default].
    - rewrite (find_list_team_json _ _ ts' (other_than_team_json p')).
      cbn [mbind Result_bind]. rewrite Hplayer.
      by destruct (List.find _ ts').
    - rewrite (find_list_team_json _
                 (fun _ => true) ts') by reflexivity.
      cbn [mbind Result_bind]. rewrite Hplayer.
      by destruct ts'. }
  assert (resolvedPlayerTeamId user (gameState s) = Ok (VStr (Typed.id p)))
    as Hres.
  { unfold resolvedPlayerTeamId. rewrite Hplayer. cbn.
    by destruct (String.eqb_spec (Typed.id p) ""). }
  assert (JS.find_opt (VArr (List.map Round.result_json rs)) (fun r =>
            id ← JS.get r "teamId"; Ok (JS.strict_eq id (VStr (Typed.id p))))
          = Ok (from_option Round.result_json VUndefined
                  (List.find (fun r => String.eqb (Round.teamId r) (Typed.id p))
                     rs))) as Hfind.
  { unfold JS.find_opt. cbn [JS.nullish JS.find].
    by apply find_list_encoded. }
  assert (JS.truthy (JS.get_opt
            (from_option Round.result_json VUndefined
               (List.find (fun r => String.eqb (Round.teamId r) (Typed.id p)) rs))
            "correct") = Round.verdict rs (Typed.id p)) as Hverdict.
  { unfold Round.verdict. by destruct (List.find _ rs) as [[? []]|]. }
  unfold step, commit.
  rewrite (handleMessage_typed _ _ "team_battle_question_results")
    by reflexivity.
  pick_case.
  remember (merge_results user (Round.results_event ca rs lb)) as mr eqn:Hmr.
  change (JS.prop (Round.results_event ca rs lb) "teamResults")
    with (VArr (List.map Round.result_json rs)).
  change (JS.prop (Round.results_event ca rs lb) "correctAnswer") with ca.
  rewrite Hres, !bind_emit. cbn beta. rewrite bind_eval_ok, Hfind, bind_eval_ok.
  rewrite Hverdict, !bind_emit. cbn. by rewrite Hmerge.
Qed.

(** X14: with the player team known (its id not empty) and a typed roster,
    a results event sets [lastRoundCorrect] to the [correct] flag of the
    first [teamResults] entry that carries the player team's id, and to
    [false] when no entry does. *)
Theorem results_verdict user s ts p ca rs lb :
  teams (gameState s) = VArr (List.map Typed.team_json ts) →
  playerTeam (gameState s) = Typed.team_json p →
  Typed.id p ≠ "" →
  ∃ s', step user s (Parsed (Round.results_event ca rs lb)) = Ok s'
        ∧ lastRoundCorrect s' = Some (Round.verdict rs (Typed.id p))
        ∧ waitingForResults s' = false.
Proof.
  intros Hteams Hplayer Hid. eexists. split.
  - by apply step_results_typed.
  - unfold run_effects. cbn.
    destruct (option_bool_eqb _ _); [by split|by split].
Qed.

(** X15: under the same conditions the leaderboard is merged into the
    roster by team id: the roster keeps its length and order, a team with a
    leaderboard entry takes the score of the first such entry and keeps its
    other fields, a team without one is unchanged; and the player team is
    refreshed from the merged roster when the user is a member of one of its
    teams, else kept. *)
Theorem results_merge_leaderboard user s ts p ca rs lb :
  teams (gameState s) = VArr (List.map Typed.team_json ts) →
  playerTeam (gameState s) = Typed.team_json p →
  Typed.id p ≠ "" →
  ∃ s', step user s (Parsed (Round.results_event ca rs lb)) = Ok s'
        ∧ teams (gameState s')
          = VArr (List.map Typed.team_json (List.map (Round.with_entry lb) ts))
        ∧ playerTeam (gameState s')
          = Typed.team_json
              (default p (List.find (Typed.has_member (user_id user))
                            (List.map (Round.with_entry lb) ts)))
        ∧ phase (gameState s') = phase (gameState s)
        ∧ currentQuestion (gameState s') = currentQuestion (gameState s).
Proof.
  intros Hteams Hplayer Hid. eexists. split.
  - by apply step_results_typed.
  - rewrite gameState_run_effects. by cbn.
Qed.

(** X16: a results event handled without an exception leaves
    [lastRoundCorrect] a boolean and [waitingForResults] false.  The
    feedback flag is raised when that verdict differs from the value before
    the event, and is left as it was when it is the same: a verdict equal to
    an undismissed earlier one does not bring a hidden overlay back. *)
Theorem results_raise_feedback user s data s' :
  has_type "team_battle_question_results" data →
  snd (try_block user (gameState s) (Parsed data)) = Ok tt →
  step user s (Parsed data) = Ok s' →
  ∃ b, lastRoundCorrect s' = Some b
       ∧ waitingForResults s' = false
       ∧ (lastRoundCorrect s ≠ Some b → showRoundFeedback s' = true)
       ∧ (lastRoundCorrect s = Some b →
          showRoundFeedback s' = showRoundFeedback s).
Proof.
  intros Hty. unfold step, commit, handleMessage, try_block, JS.get.
  cbn [JSON_parse]. rewrite bind_eval_ok, (has_type_not_nullish _ _ Hty).
  rewrite bind_emit. cbn beta. rewrite bind_eval_ok.
  unfold has_type in Hty. rewrite Hty. pick_case.
  run_handler; cbn; try discriminate.
  intros _.
  destruct (merge_results user data (gameState s)) as [g|]; cbn;
    [|discriminate].
  intros [= <-]. eexists. unfold run_effects. cbn.
  split; [|split; [|split]].
  - by destruct (option_bool_eqb _ _).
  - by destruct (option_bool_eqb _ _).
  - intros Hne. destruct (lastRoundCorrect s) as [b0|]; cbn; [|done].
    destruct (Bool.eqb_spec b0
                (JS.truthy (JS.get_opt a0 "correct"))); [congruence|done].
  - intros ->. cbn. by rewrite Bool.eqb_reflx.
Qed.

(** ** The roster of a [teams_updated] event, in full *)

(** X17: for every typed roster, [teams_updated] and [team_update] store the
    roster; the player team is the first team that has the user among its
    members, if any.  The opposing team is the first team whose id differs
    from the player team's; when the user is in no team, the player team is
    [undefined] and the opposing team is the first team of the roster. *)
Theorem teams_update_typed user s label (ts : list Typed.Team) :
  label = "teams_updated" ∨ label = "team_update" →
  ∃ s', step user s (Parsed (Typed.teams_event label ts)) = Ok s'
        ∧ teams (gameState s') = VArr (List.map Typed.team_json ts)
        ∧ playerTeam (gameState s')
          = from_option Typed.team_json VUndefined
              (List.find (Typed.has_member (user_id user)) ts)
        ∧ opposingTeam (gameState s')
          = from_option Typed.team_json VUndefined
              match List.find (Typed.has_member (user_id user)) ts with
              | Some p =>
                  List.find (fun t => negb (String.eqb (Typed.id t) (Typed.id p)))
                    ts
              | None => head ts
              end
        ∧ with_gameState (gameState s) s' = s.
Proof.
  intros Hlabel.
  assert (handleMessage user (gameState s) (Parsed (Typed.teams_event label ts))
          = try_catch
              (emit (ConsoleLog "Team Battle Game Event:" (Typed.teams_event label ts));;
               updateTeamsData user (VArr (List.map Typed.team_json ts)))
              (fun error => emit (ConsoleError error))) as Hh.
  { rewrite (handleMessage_typed _ _ label) by reflexivity.
    by destruct Hlabel as [-> | ->]. }
  unfold step, commit. rewrite Hh. unfold updateTeamsData, JS.find.
  rewrite (find_list_team_json _ _ ts (has_user_team_json user)).
  rewrite bind_emit. cbn beta. rewrite bind_eval_ok.
  destruct (List.find (Typed.has_member (user_id user)) ts) as [p|];
    cbn [from_option].
  - rewrite (find_list_team_json _ _ ts (other_than_team_json p)).
    rewrite bind_eval_ok. cbn. rewrite run_effects_same by done.
    eexists. split; [reflexivity|]. cbn. repeat split. by destruct s.
  - rewrite (find_list_team_json _ (fun _ => true) ts) by reflexivity.
    rewrite bind_eval_ok. cbn. rewrite run_effects_same by done.
    eexists. split; [reflexivity|]. cbn. repeat split; [|by destruct s].
    by destruct ts.
Qed.

(** ** The finished view *)

Lemma find_never {A} (l : list A) : List.find (fun _ => false) l = None.
Proof. by induction l. Qed.

(** X18: when the player team is unknown at the end ([playerTeam]
    undefined) and the final roster is typed and not empty, the finished
    view shows the first team of the roster both as the user's team and as
    the opponent. *)
Theorem finished_view_without_player_team g t (ts : list Typed.Team) :
  playerTeam g = VUndefined →
  teams g = VArr (List.map Typed.team_json (t :: ts)) →
  Page.finished_teams g = Ok (Typed.team_json t, Typed.team_json t).
Proof.
  intros Hp Ht. unfold Page.finished_teams. rewrite Hp, Ht.
  cbn [JS.or_else JS.truthy JS.find].
  rewrite (find_list_encoded Typed.team_json (other_than VUndefined)
             (fun _ => true)) by reflexivity.
  rewrite (find_list_encoded Typed.team_json _ (fun _ => false))
    by reflexivity.
  rewrite find_never. reflexivity.
Qed.

(** X19: with the player team known and a typed final roster, the finished
    view takes the user's team from the roster, by id, and falls back on the
    player team of the last update (with its old tallies) when the roster
    does not list that id; the opponent is the first roster team of another
    id; and the score circle shows the score of whichever team comes first in
    the roster. *)
Theorem finished_view_typed g p t (ts : list Typed.Team) :
  playerTeam g = Typed.team_json p →
  teams g = VArr (List.map Typed.team_json (t :: ts)) →
  ∃ opponent,
    Page.finished_teams g
    = Ok (Typed.team_json
            (default p (List.find (fun x => String.eqb (Typed.id x) (Typed.id p))
                          (t :: ts))),
          opponent)
    ∧ (∀ o, List.find (fun x => negb (String.eqb (Typed.id x) (Typed.id p)))
              (t :: ts) = Some o →
            opponent = Typed.team_json o)
    ∧ Page.score_circle g = VNum (Typed.score t).
Proof.
  intros Hp Ht. unfold Page.finished_teams, Page.score_circle. rewrite Hp, Ht.
  cbn [JS.or_else JS.truthy JS.find].
  rewrite (find_list_team_json _ _ _ (other_than_team_json p)).
  rewrite (find_list_encoded Typed.team_json _
             (fun x => String.eqb (Typed.id x) (Typed.id p))) by reflexivity.
  cbn [mbind Result_bind].
  eexists. split; [|split].
  - f_equal. f_equal.
    by destruct (List.find (fun x => String.eqb (Typed.id x) (Typed.id p)) _).
  - intros o Ho. by rewrite Ho.
  - reflexivity.
Qed.

(** ** Snapshots of the game state *)

Lemma spread_field_again src k old :
  spread_field src k (spread_field src k old) = spread_field src k old.
Proof. unfold spread_field. by destruct (JS.own src k). Qed.

(** X20: a ['game_state_update'] always succeeds and touches [gameState]
    only; it takes [playerTeam] and [opposingTeam] from the event, so an
    update that carries none erases the teams that were known; and
    delivering it twice is the same as delivering it once. *)
Theorem game_state_update_snapshot user s data :
  has_type "game_state_update" data →
  ∃ s', step user s (Parsed data) = Ok s'
        ∧ playerTeam (gameState s') = JS.prop data "playerTeam"
        ∧ opposingTeam (gameState s') = JS.prop data "opposingTeam"
        ∧ with_gameState (gameState s) s' = s
        ∧ step user s' (Parsed data) = Ok s'.
Proof.
  intros Hty.
  set (gs := JS.prop data "gameState").
  set (snapshot := fun prev : GameState =>
    {| phase := spread_field gs "phase" (phase prev);
       currentQuestion := spread_field gs "currentQuestion" (currentQuestion prev);
       questionNumber := spread_field gs "questionNumber" (questionNumber prev);
       totalQuestions := spread_field gs "totalQuestions" (totalQuestions prev);
       timeRemaining := spread_field gs "timeRemaining" (timeRemaining prev);
       teams := spread_field gs "teams" (teams prev);
       playerTeam := JS.prop data "playerTeam";
       opposingTeam := JS.prop data "opposingTeam";
       finalScore := spread_field gs "finalScore" (finalScore prev);
       correct := spread_field gs "correct" (correct prev);
       incorrect := spread_field gs "incorrect" (incorrect prev) |}).
  assert (∀ s0, step user s0 (Parsed data)
                = Ok (with_gameState (snapshot (gameState s0)) s0)) as Hstep.
  { intros s0. unfold step, commit.
    rewrite (handleMessage_typed _ _ _ _ Hty). pick_case.
    unfold updateGameState. rewrite !bind_emit. cbn.
    by rewrite run_effects_same. }
  exists (with_gameState (snapshot (gameState s)) s).
  split; [apply Hstep|]. split; [done|]. split; [done|].
  split; [by destruct s|].
  rewrite Hstep. f_equal. unfold with_gameState, snapshot. cbn.
  by rewrite !spread_field_again.
Qed.

(** ** Locking and unlocking the board *)

(** X21: every results event, well-formed or not, takes the
    waiting-for-opponent overlay down, provided the render after it
    succeeds. *)
Theorem results_end_waiting user s data s' :
  has_type "team_battle_question_results" data →
  step user s (Parsed data) = Ok s' →
  waitingForResults s' = false ∧ Page.waiting_overlay s' = false.
Proof.
  intros Hty. unfold step, commit.
  rewrite (handleMessage_typed _ _ _ _ Hty). pick_case.
  assert (∀ x, waitingForResults (run_effects s x) = waitingForResults x)
    as Hw.
  { intros x. unfold run_effects.
    destruct (option_bool_eqb _ _); [done|]. by destruct (lastRoundCorrect x). }
  assert (∀ x, waitingForResults x = false →
               waitingForResults x = false ∧ Page.waiting_overlay x = false)
    as Hov.
  { intros x Hx. split; [done|]. unfold Page.waiting_overlay.
    by rewrite Hx, andb_false_r. }
  run_handler; cbn.
  - destruct (merge_results user data (gameState s)); cbn; [|discriminate].
    intros [= <-]. apply Hov. by rewrite Hw.
  - intros [= <-]. apply Hov. by rewrite Hw.
  - intros [= <-]. apply Hov. by rewrite Hw.
Qed.

(** X22: after a ['team_answer_finalized'] event with a [finalAnswer], the
    board is locked exactly when the final answer id is truthy, while
    [hasSubmitted] and [waitingForResults] are set in every case: a missing
    or empty answer id raises the waiting overlay over an unlocked board. *)
Theorem finalized_lock user s data :
  has_type "team_answer_finalized" data →
  JS.nullish (JS.prop data "finalAnswer") = false →
  ∃ s', step user s (Parsed data) = Ok s'
        ∧ Page.isQuestionLocked s'
          = JS.truthy (JS.prop (JS.prop data "finalAnswer") "answerId")
        ∧ hasSubmitted s' = true
        ∧ waitingForResults s' = true
        ∧ Page.waiting_overlay s' = Page.renders (gameState s) Page.QuestionView.
Proof.
  intros Hty Hfa. eexists. split.
  - by apply finalized_locks_question.
  - unfold Page.waiting_overlay. cbn. by rewrite andb_true_r.
Qed.

(** ** What the message handler leaves alone *)

(** X23: the message handler never writes to the socket: no inbound
    message, whatever it holds, makes the page send an event. *)
Theorem handler_never_sends user current event :
  Forall sends_nothing (fst (handleMessage user current event)).
Proof.
  destruct event as [|data]; [by repeat constructor|].
  unfold handleMessage, try_block. cbn [JSON_parse].
  rewrite bind_eval_ok, bind_emit. cbn beta.
  destruct (JS.get data "type") as [ty|]; [|by repeat constructor].
  rewrite bind_eval_ok.
  destruct (event_type ty) as [[]|]; cbn [dispatch];
    unfold updateGameState, updateTeamsData;
    run_handler; cbn; by repeat constructor.
Qed.

Lemma flush_connected acts s s' :
  Forall keeps_connected acts →
  flush acts s = Ok s' →
  connected s = true → connected s' = true.
Proof.
  intros Hall. revert s. induction Hall as [|a acts Ha _ IH]; intros s.
  - cbn. by intros [= <-].
  - cbn [flush]. destruct (apply_action a s) as [s1|e] eqn:Hs1; [|discriminate].
    cbn. intros Hflush Hc. apply (IH _ Hflush).
    destruct a; cbn in Hs1; try (injection Hs1 as <-; exact Hc).
    + injection Hs1 as <-. exact Ha.
    + destruct (f (gameState s)); [|discriminate]. by injection Hs1 as <-.
    + destruct (f (suggestions s)); [|discriminate]. by injection Hs1 as <-.
Qed.

Lemma handleMessage_keeps_connected user current event :
  Forall keeps_connected (fst (handleMessage user current event)).
Proof.
  destruct event as [|data]; [by repeat constructor|].
  unfold handleMessage, try_block. cbn [JSON_parse].
  rewrite bind_eval_ok, bind_emit. cbn beta.
  destruct (JS.get data "type") as [ty|]; [|by repeat constructor].
  rewrite bind_eval_ok.
  destruct (event_type ty) as [[]|]; cbn [dispatch];
    unfold updateGameState, updateTeamsData;
    run_handler; cbn; by repeat constructor.
Qed.

(** X24: nothing resets the connection flag: once [connected] is set it
    stays set through every sequence of inputs (the page has no handling of
    a lost connection). *)
Theorem connected_for_good user inputs : ∀ s s',
  run user s inputs = Ok s' →
  connected s = true → connected s' = true.
Proof.
  assert (∀ s h s', Forall keeps_connected (fst h) → commit s h = Ok s' →
                    connected s = true → connected s' = true) as Hcommit.
  { unfold commit. intros s h s' Hall Hc Hcon.
    destruct (flush (fst h) s) as [s1|] eqn:Hf; [|discriminate].
    injection Hc as <-. pose proof (flush_connected _ _ _ Hall Hf Hcon) as H1.
    unfold run_effects.
    destruct (option_bool_eqb _ _); [done|]. by destruct (lastRoundCorrect s1). }
  induction inputs as [|i inputs IH]; intros s s'; cbn [run].
  - by intros [= <-].
  - destruct (react user s i) as [s1|] eqn:Hr; [|discriminate]. cbn.
    intros Hrun Hcon. apply (IH _ _ Hrun). revert Hr Hcon.
    destruct i as [event| |answerId|answerId]; cbn [react]; unfold step;
      apply Hcommit.
    + apply handleMessage_keeps_connected.
    + unfold onClose. run_handler. cbn. by repeat constructor.
    + unfold handleMemberSelect.
      destruct (_ || _); run_handler; cbn; by repeat constructor.
    + unfold handleCaptainSubmit.
      destruct (_ || _); [cbn; by repeat constructor|].
      destruct (negb _); run_handler; cbn; by repeat constructor.
Qed.

(** ** More concrete runs *)

Lemma unknown_type_ignored_witness :
  step bob lions_at_q1 (Parsed ping) = Ok lions_at_q1.
Proof. apply (unknown_type_ignored bob lions_at_q1 ping). reflexivity. Defined.

Lemma phase_written_by_handler_witness :
  ∃ s', step bob lions_at_q1 (Parsed battle_started) = Ok s'
        ∧ (phase (gameState s') = phase (gameState lions_at_q1)
           ∨ In (phase (gameState s')) phases_set_by_handler).
Proof.
  eexists. split; [vm_compute; reflexivity|].
  apply (phase_written_by_handler bob lions_at_q1 (Parsed battle_started)).
  - vm_compute. reflexivity.
  - intros data [= <-]. discriminate.
Defined.



Lemma session_parameter_wins_witness :
  Mount.gameSessionId [("session", ""); ("gameSessionId", "g1")] = Some ""
  ∧ Mount.screen (Some bob) [("session", ""); ("gameSessionId", "g1")]
    = Mount.InvalidSession.
Proof.
  destruct (session_parameter_wins bob
              [("session", ""); ("gameSessionId", "g1")] "" eq_refl)
    as [Hid Hempty].
  split; [exact Hid|]. by destruct (Hempty eq_refl).
Defined.

Lemma one_phase_view_witness :
  Page.QuestionView = Page.QuestionView.
Proof.
  apply (one_phase_view (gameState lions_at_q1)); reflexivity.
Defined.


Lemma suggestions_stay_tidy_witness :
  ∃ s l, run bob initial_view suggestion_round = Ok s
         ∧ suggestions s !! "a2" = Some l
         ∧ l ≠ []
         ∧ ∀ uid, (occurrences uid l ≤ 1)%nat.
Proof.
  eexists. eexists. split; [vm_compute; reflexivity|].
  split; [vm_compute; reflexivity|].
  refine (suggestions_stay_tidy bob suggestion_round _ "a2" _ _ _);
    vm_compute; reflexivity.
Defined.

Lemma selection_is_idempotent_witness :
  ∃ s1, step bob lions_at_q1
          (Parsed (option_selected (VStr "a1") (VNum 7) "bob")) = Ok s1
        ∧ step bob s1 (Parsed (option_selected (VStr "a1") (VNum 7) "bob"))
          = Ok s1.
Proof.
  eexists. split; [vm_compute; reflexivity|].
  apply (selection_is_idempotent bob lions_at_q1);
    [reflexivity | reflexivity | vm_compute; reflexivity].
Defined.

Lemma selection_keeps_others_witness :
  ∃ s s', run bob initial_view suggestion_round = Ok s
          ∧ step bob s (Parsed (option_selected (VStr "a1") (VNum 7) "bob"))
            = Ok s'
          ∧ (listed (VNum 8) (suggestions s') "a2"
             ↔ listed (VNum 8) (suggestions s) "a2").
Proof.
  eexists. eexists. split; [vm_compute; reflexivity|].
  split; [vm_compute; reflexivity|].
  apply (selection_keeps_others bob _
           (option_selected (VStr "a1") (VNum 7) "bob"));
    [reflexivity | reflexivity | vm_compute; reflexivity].
Defined.


Lemma own_selection_echo_witness :
  ∃ o s1 s2 l,
    fst (handleMemberSelect bob lions_at_q1 "a1")
    = [Send o; SetSelectedAnswer (VStr "a1")]
    ∧ react bob lions_at_q1 (MemberSelect "a1") = Ok s1
    ∧ step bob s1 (Parsed (echo o)) = Ok s2
    ∧ selectedAnswer s2 = VStr "a1"
    ∧ suggestions s2 !! "a1"
      = Some (l ++ [{| sg_userId := VNum 7; sg_username := VStr "bob" |}]).
Proof.
  apply (own_selection_echo bob lions_at_q1 "a1");
    first [reflexivity | discriminate].
Defined.

Lemma results_verdict_witness :
  ∃ s', step bob lions_at_q1
          (Parsed (Round.results_event (VObj [("id", VStr "a1")])
                     round_results round_leaderboard)) = Ok s'
        ∧ lastRoundCorrect s' = Some true
        ∧ waitingForResults s' = false.
Proof.
  apply (results_verdict bob lions_at_q1 [lions; tigers] lions);
    first [reflexivity | discriminate].
Defined.

Lemma results_merge_leaderboard_witness :
  ∃ s', step bob lions_at_q1
          (Parsed (Round.results_event (VObj [("id", VStr "a1")])
                     round_results round_leaderboard)) = Ok s'
        ∧ teams (gameState s')
          = VArr [ Typed.team_json (Round.set_score 10 lions);
                   Typed.team_json tigers ]
        ∧ playerTeam (gameState s')
          = Typed.team_json (Round.set_score 10 lions).
Proof.
  destruct (results_merge_leaderboard bob lions_at_q1 [lions; tigers] lions
              (VObj [("id", VStr "a1")]) round_results round_leaderboard)
    as (s' & Hstep & Hteams & Hplayer & _);
    [reflexivity | reflexivity | discriminate |].
  exists s'. split; [exact Hstep|]. split; [exact Hteams | exact Hplayer].
Defined.

Lemma results_raise_feedback_witness :
  ∃ s' b, step bob lions_at_q1 (Parsed results_a1) = Ok s'
          ∧ lastRoundCorrect s' = Some b
          ∧ showRoundFeedback s' = true.
Proof.
  assert (∃ s', step bob lions_at_q1 (Parsed results_a1) = Ok s')
    as [s' Hstep] by (eexists; vm_compute; reflexivity).
  destruct (results_raise_feedback bob lions_at_q1 results_a1 s')
    as (b & Hb & _ & Hraise & _);
    [reflexivity | vm_compute; reflexivity | exact Hstep |].
  exists s', b. split; [exact Hstep|]. split; [exact Hb|].
  apply Hraise. discriminate.
Defined.

Lemma teams_update_typed_witness :
  ∃ s', step bob initial_view
          (Parsed (Typed.teams_event "team_update" [tigers])) = Ok s'
        ∧ playerTeam (gameState s') = VUndefined
        ∧ opposingTeam (gameState s') = Typed.team_json tigers.
Proof.
  destruct (teams_update_typed bob initial_view "team_update" [tigers])
    as (s' & Hstep & _ & Hplayer & Hopp & _); [by right|].
  exists s'. split; [exact Hstep|]. split; [exact Hplayer | exact Hopp].
Defined.

Lemma finished_view_without_player_team_witness :
  ∃ s, step bob initial_view (Parsed battle_finished) = Ok s
       ∧ Page.finished_teams (gameState s)
         = Ok (Typed.team_json lions, Typed.team_json lions).
Proof.
  eexists. split; [vm_compute; reflexivity|].
  apply (finished_view_without_player_team _ lions [tigers]); reflexivity.
Defined.

Lemma finished_view_typed_witness :
  ∃ s opponent,
    step bob lions_at_q1 (Parsed battle_finished) = Ok s
    ∧ Page.finished_teams (gameState s)
      = Ok (Typed.team_json lions, opponent)
    ∧ Page.score_circle (gameState s) = VNum 0.
Proof.
  assert (∃ s, step bob lions_at_q1 (Parsed battle_finished) = Ok s)
    as [s Hstep] by (eexists; vm_compute; reflexivity).
  assert (playerTeam (gameState s) = Typed.team_json lions
          ∧ teams (gameState s)
            = VArr (List.map Typed.team_json [lions; tigers])) as [Hp Ht].
  { revert Hstep. vm_compute. by intros [= <-]. }
  destruct (finished_view_typed (gameState s) lions lions [tigers] Hp Ht)
    as (opponent & Hteams & _ & Hcircle).
  exists s, opponent. split; [exact Hstep|]. split; [exact Hteams|].
  exact Hcircle.
Defined.

Lemma game_state_update_snapshot_witness :
  ∃ s', step bob lions_at_q1 (Parsed snapshot_without_teams) = Ok s'
        ∧ playerTeam (gameState s') = VUndefined
        ∧ step bob s' (Parsed snapshot_without_teams) = Ok s'.
Proof.
  destruct (game_state_update_snapshot bob lions_at_q1 snapshot_without_teams)
    as (s' & Hstep & Hplayer & _ & _ & Hagain); [reflexivity|].
  exists s'. split; [exact Hstep|]. split; [exact Hplayer | exact Hagain].
Defined.

Lemma results_end_waiting_witness :
  ∃ s', step bob (with_waitingForResults true lions_at_q1)
          (Parsed results_teamResults_object) = Ok s'
        ∧ waitingForResults s' = false
        ∧ Page.waiting_overlay s' = false.
Proof.
  eexists. split; [vm_compute; reflexivity|].
  apply (results_end_waiting bob (with_waitingForResults true lions_at_q1)
           results_teamResults_object);
    [reflexivity | vm_compute; reflexivity].
Defined.

Lemma finalized_lock_witness :
  ∃ s', step bob lions_at_q1 (Parsed finalized_without_answer) = Ok s'
        ∧ Page.isQuestionLocked s' = false
        ∧ hasSubmitted s' = true
        ∧ waitingForResults s' = true
        ∧ Page.waiting_overlay s' = true.
Proof.
  apply (finalized_lock bob lions_at_q1 finalized_without_answer);
    reflexivity.
Defined.

Lemma connected_for_good_witness :
  ∃ s, run bob (with_connected true initial_view) round_to_results = Ok s
       ∧ connected s = true.
Proof.
  eexists. split; [vm_compute; reflexivity|].
  apply (connected_for_good bob round_to_results
           (with_connected true initial_view));
    [vm_compute; reflexivity | reflexivity].
Defined.
